(** * A shallow embedding of the MCP demo server

    The development follows the TypeScript sources:
    - [src/tools/base-tool.ts]      : tool definitions and argument validation
    - [src/tools/calculator.ts]     : the calculator tool
    - [src/tools/file-operations.ts]: the workspace file tool
    - [src/tools/system-info.ts]    : the host statistics tool
    - [src/integrations/google-adk.ts] : the usage recorder
    - [src/index.ts]                : the registry and the request handlers

    JavaScript values are an inductive type, numbers are IEEE-754 binary64
    (primitive floats), thrown errors are an explicit outcome, and everything
    the server asks of its host (file system, operating system, clock, the
    recorder's log array) is an event of a small free monad that an
    interpreter runs against a host. *)

From Stdlib Require Import String Ascii List Bool Arith ZArith Lia.
From Stdlib Require Import Floats Uint63 QArith.
From Stdlib Require DecimalString.
Import ListNotations.

Set Warnings "-register-all".
Local Close Scope Q_scope.
Local Open Scope string_scope.
Local Open Scope list_scope.

(** ** JavaScript values *)

(** The values a decoded request can carry (JSON values, and [undefined] for
    a member that is absent), together with [Date], which the file tool puts
    in its payloads.  An object lists its own enumerable properties in
    enumeration order. *)
Inductive JsValue : Type :=
| JUndefined
| JNull
| JBool (b : bool)
| JNum (n : float)
| JStr (s : string)
| JArr (items : list JsValue)
| JObj (props : list (string * JsValue))
| JDate (ms : float).

(** A thrown [Error]: its [message], and the [code] Node attaches to
    system errors (['ENOENT'], ['EACCES'], ...). *)
Record JsError : Type := mkError { message : string; code : option string }.

(** [new Error(msg)] *)
Definition Error_ (msg : string) : JsError := mkError msg None.

(** Synchronous code either completes with a value or throws. *)
Inductive Result (A : Type) : Type :=
| Ok (a : A)
| Err (e : JsError).
Arguments Ok {A} a.
Arguments Err {A} e.

Definition is_Err {A} (r : Result A) : bool :=
  match r with Ok _ => false | Err _ => true end.

Definition rbind {A B} (r : Result A) (k : A -> Result B) : Result B :=
  match r with
  | Ok a => k a
  | Err e => Err e
  end.

(** *** Strings *)

(** The double quote character, for messages that quote a name. *)
Definition dquote : string := String (ascii_of_nat 34) EmptyString.

(** [hay.includes(needle)] *)
Fixpoint includes (needle hay : string) : bool :=
  String.prefix needle hay ||
  match hay with
  | EmptyString => false
  | String _ rest => includes needle rest
  end.

(** [s.startsWith(p)] *)
Definition startsWith (p s : string) : bool := String.prefix p s.

(** [s.length]: the number of UTF-16 code units of a string.  A string is
    held as its UTF-8 bytes: every byte that starts a character counts one,
    and the first byte of a four-byte character (a character outside the
    basic plane, a surrogate pair in UTF-16) counts two. *)
Fixpoint utf16_length (s : string) : nat :=
  match s with
  | EmptyString => 0
  | String c rest =>
      let byte := nat_of_ascii c in
      (if ((128 <=? byte) && (byte <? 192))%nat then 0
       else if (240 <=? byte)%nat then 2
       else 1) + utf16_length rest
  end.

(** The decimal spelling of an array index. *)
Definition index_name (i : nat) : string :=
  DecimalString.NilEmpty.string_of_uint (Nat.to_uint i).

Fixpoint lookup {V : Type} (k : string) (m : list (string * V)) : option V :=
  match m with
  | [] => None
  | (k', v) :: rest => if String.eqb k k' then Some v else lookup k rest
  end.

Definition mem (k : string) (l : list string) : bool :=
  existsb (String.eqb k) l.

(** *** Operators *)

(** [typeof v] *)
Definition typeof (v : JsValue) : string :=
  match v with
  | JUndefined => "undefined"
  | JNull => "object"
  | JBool _ => "boolean"
  | JNum _ => "number"
  | JStr _ => "string"
  | JArr _ => "object"
  | JObj _ => "object"
  | JDate _ => "object"
  end.

Definition is_nan (n : float) : bool := negb (PrimFloat.eqb n n).

(** ToBoolean: [undefined], [null], [false], [0], [-0], [NaN] and the empty
    string are falsy. *)
Definition truthy (v : JsValue) : bool :=
  match v with
  | JUndefined => false
  | JNull => false
  | JBool b => b
  | JNum n => negb (PrimFloat.eqb n 0 || is_nan n)
  | JStr s => negb (String.eqb s "")
  | JArr _ => true
  | JObj _ => true
  | JDate _ => true
  end.

Fixpoint indexed (i : nat) (items : list JsValue) : list (string * JsValue) :=
  match items with
  | [] => []
  | x :: rest => (index_name i, x) :: indexed (S i) rest
  end.

(** [Object.entries(v)] for an object [v]: the own enumerable properties.
    ([validateArguments] only reaches it behind its object test.) *)
Definition Object_entries (v : JsValue) : list (string * JsValue) :=
  match v with
  | JObj props => props
  | JArr items => indexed 0 items
  | _ => []
  end.

(** Property names every object has through [Object.prototype]. *)
Definition Object_prototype_names : list string :=
  [ "constructor"; "hasOwnProperty"; "isPrototypeOf"; "propertyIsEnumerable";
    "toLocaleString"; "toString"; "valueOf"; "__proto__";
    "__defineGetter__"; "__defineSetter__"; "__lookupGetter__";
    "__lookupSetter__" ].

(** Names an array has besides its indices: [length] and [Array.prototype]. *)
Definition Array_builtin_names : list string :=
  [ "length"; "at"; "concat"; "copyWithin"; "entries"; "every"; "fill";
    "filter"; "find"; "findIndex"; "findLast"; "findLastIndex"; "flat";
    "flatMap"; "forEach"; "includes"; "indexOf"; "join"; "keys";
    "lastIndexOf"; "map"; "pop"; "push"; "reduce"; "reduceRight"; "reverse";
    "shift"; "slice"; "some"; "sort"; "splice"; "toReversed"; "toSorted";
    "toSpliced"; "unshift"; "values"; "with" ].

(** Names a [Date] has through [Date.prototype]. *)
Definition Date_builtin_names : list string :=
  [ "getDate"; "getDay"; "getFullYear"; "getHours"; "getMilliseconds";
    "getMinutes"; "getMonth"; "getSeconds"; "getTime"; "getTimezoneOffset";
    "getUTCDate"; "getUTCDay"; "getUTCFullYear"; "getUTCHours";
    "getUTCMilliseconds"; "getUTCMinutes"; "getUTCMonth"; "getUTCSeconds";
    "getYear"; "setDate"; "setFullYear"; "setHours"; "setMilliseconds";
    "setMinutes"; "setMonth"; "setSeconds"; "setTime"; "setUTCDate";
    "setUTCFullYear"; "setUTCHours"; "setUTCMilliseconds"; "setUTCMinutes";
    "setUTCMonth"; "setUTCSeconds"; "setYear"; "toDateString"; "toGMTString";
    "toISOString"; "toJSON"; "toLocaleDateString"; "toLocaleTimeString";
    "toTimeString"; "toUTCString" ].

(** The names [v] answers to without having been given them as entries. *)
Definition builtin_names (v : JsValue) : list string :=
  match v with
  | JObj _ => Object_prototype_names
  | JArr _ => Array_builtin_names ++ Object_prototype_names
  | JDate _ => Date_builtin_names ++ Object_prototype_names
  | _ => []
  end.

(** Every name some object answers to without being given it. *)
Definition all_builtin_names : list string :=
  Object_prototype_names ++ Array_builtin_names ++ Date_builtin_names.

(** [k in v] for an object [v]: an own property or an inherited one. *)
Definition js_in (k : string) (v : JsValue) : bool :=
  mem k (map fst (Object_entries v)) || mem k (builtin_names v).

(** Reading a member by one of the names the tools destructure
    ([operation], [a], [b], [path], [content], [detail]); none of them is
    inherited, so a member that was not supplied reads as [undefined]. *)
Definition own_field (k : string) (v : JsValue) : JsValue :=
  match lookup k (Object_entries v) with
  | Some x => x
  | None => JUndefined
  end.

(** ** Tool definitions (base-tool.ts) *)

Record PropertySchema : Type := mkProp {
  p_type : string;
  p_enum : option (list string);
  p_description : string
}.

Record InputSchema : Type := mkSchema {
  s_type : string;
  properties : list (string * PropertySchema);
  required : option (list string)
}.

Record ToolDefinition : Type := mkDefinition {
  d_name : string;
  d_description : string;
  d_inputSchema : InputSchema
}.

Record ToolResult : Type := mkResult {
  success : bool;
  data : option JsValue;
  error : option string
}.

(** The first loop of [validateArguments]: every required name is [in] the
    arguments. *)
Fixpoint check_required (fields : list string) (args : JsValue) : Result unit :=
  match fields with
  | [] => Ok tt
  | field :: rest =>
      if negb (js_in field args)
      then Err (Error_ ("Missing required argument: " ++ field))
      else check_required rest args
  end.

(** The body of the second loop, for one entry whose key the schema
    declares. *)
Definition check_type (key : string) (expectedType : string) (value : JsValue)
  : Result unit :=
  let actualType := typeof value in
  if String.eqb expectedType "number" && negb (String.eqb actualType "number")
  then Err (Error_ ("Argument " ++ dquote ++ key ++ dquote ++ " must be a number"))
  else if String.eqb expectedType "string" && negb (String.eqb actualType "string")
  then Err (Error_ ("Argument " ++ dquote ++ key ++ dquote ++ " must be a string"))
  else if String.eqb expectedType "boolean" && negb (String.eqb actualType "boolean")
  then Err (Error_ ("Argument " ++ dquote ++ key ++ dquote ++ " must be a boolean"))
  else Ok tt.

(** The second loop.  [properties[key]] is truthy for a declared key (a
    schema object); for any other key it is [undefined] or an inherited
    member without a [type], and nothing is checked. *)
Fixpoint check_types (props : list (string * PropertySchema))
    (entries : list (string * JsValue)) : Result unit :=
  match entries with
  | [] => Ok tt
  | (key, value) :: rest =>
      match lookup key props with
      | Some p =>
          rbind (check_type key (p_type p) value)
                (fun _ => check_types props rest)
      | None => check_types props rest
      end
  end.

(** [BaseTool.validateArguments] *)
Definition validateArguments (schema : InputSchema) (args : JsValue)
  : Result unit :=
  if negb (truthy args) || negb (String.eqb (typeof args) "object")
  then Err (Error_ "Arguments must be an object")
  else
    let required := match required schema with Some r => r | None => [] end in
    rbind (check_required required args)
          (fun _ => check_types (properties schema) (Object_entries args)).

(** ** Host interaction *)

(** What [fs.stat] reports (the members the file tool reads). *)
Record Stats : Type := mkStats {
  isDirectory : bool;
  size : float;
  birthtime : float;
  mtime : float
}.

(** An element of [os.cpus()]. *)
Record CpuInfo : Type := mkCpu { model : string; speed : float }.

(** google-adk.ts, [ToolUsageLog] *)
Record ToolUsageLog : Type := mkLog {
  toolName : string;
  log_arguments : JsValue;
  log_result : ToolResult;
  timestamp : float;
  duration : option float
}.

(** Calls that leave the process.  A file-system promise settles with a
    value or rejects with a system error. *)
Inductive HostCall : Type -> Type :=
| FsReadFile (path : string) : HostCall (Result string)
| FsWriteFile (path : string) (content : JsValue) : HostCall (Result unit)
| FsReaddir (path : string) : HostCall (Result (list string))
| FsStat (path : string) : HostCall (Result Stats)
| OsPlatform : HostCall string
| OsArch : HostCall string
| OsUptime : HostCall float
| OsTotalmem : HostCall float
| OsFreemem : HostCall float
| OsCpus : HostCall (list CpuInfo)
| DateNow : HostCall float
| ConsoleError (line : string) : HostCall unit.

(** Updates of the recorder's [logs] array, which lives on the heap. *)
Inductive HeapOp : Type -> Type :=
| LogsNew : HeapOp unit
| LogsPush (entry : ToolUsageLog) : HeapOp unit.

Inductive Event (X : Type) : Type :=
| host_call (c : HostCall X)
| heap_op (o : HeapOp X).
Arguments host_call {X} c.
Arguments heap_op {X} o.

(** An asynchronous computation: it returns, throws (rejects), or performs
    an event and continues with the answer. *)
Inductive Prog (A : Type) : Type :=
| Ret (a : A)
| Throw (e : JsError)
| Vis (X : Type) (ev : Event X) (k : X -> Prog A).
Arguments Ret {A} a.
Arguments Throw {A} e.
Arguments Vis {A X} ev k.

Fixpoint bind {A B : Type} (p : Prog A) (f : A -> Prog B) : Prog B :=
  match p with
  | Ret a => f a
  | Throw e => Throw e
  | Vis ev k => Vis ev (fun x => bind (k x) f)
  end.

(** [try { p } catch (error) { h error }] *)
Fixpoint try_catch {A : Type} (p : Prog A) (h : JsError -> Prog A) : Prog A :=
  match p with
  | Ret a => Ret a
  | Throw e => h e
  | Vis ev k => Vis ev (fun x => try_catch (k x) h)
  end.

Definition call {X : Type} (c : HostCall X) : Prog X := Vis (host_call c) Ret.

Definition heap {X : Type} (o : HeapOp X) : Prog X := Vis (heap_op o) Ret.

(** [await] of a promise that may reject. *)
Definition await {X : Type} (c : HostCall (Result X)) : Prog X :=
  Vis (host_call c)
      (fun r => match r with Ok x => Ret x | Err e => Throw e end).

Definition lift {A : Type} (r : Result A) : Prog A :=
  match r with Ok a => Ret a | Err e => Throw e end.

Declare Scope prog_scope.
Delimit Scope prog_scope with prog.
Notation "x <- p ;; q" := (bind p (fun x => q))
  (at level 61, p at next level, right associativity) : prog_scope.
Notation "p ;; q" := (bind p (fun _ => q))
  (at level 61, right associativity) : prog_scope.
Local Open Scope prog_scope.

(** A host answers every call from its current state. *)
Record Host : Type := mkHost {
  host_state : Type;
  answer : forall X : Type, HostCall X -> host_state -> X * host_state
}.

(** The world a program runs in: the host, and the recorder's array. *)
Record World (h : Host) : Type := mkWorld {
  outside : host_state h;
  logs : list ToolUsageLog
}.
Arguments mkWorld {h} outside logs.
Arguments outside {h} w.
Arguments logs {h} w.

Definition perform (h : Host) {X : Type} (ev : Event X) (w : World h)
  : X * World h :=
  match ev with
  | host_call c =>
      let (x, s) := answer h X c (outside w) in (x, mkWorld s (logs w))
  | heap_op o =>
      match o in HeapOp T return T * World h with
      | LogsNew => (tt, mkWorld (outside w) [])
      | LogsPush entry => (tt, mkWorld (outside w) (logs w ++ [entry]))
      end
  end.

Fixpoint run (h : Host) {A : Type} (p : Prog A) (w : World h)
  : Result A * World h :=
  match p with
  | Ret a => (Ok a, w)
  | Throw e => (Err e, w)
  | Vis ev k => let (x, w') := perform h ev w in run h (k x) w'
  end.

(** The host calls a program makes when run, oldest first. *)
Inductive Made : Type := made (X : Type) (c : HostCall X).

Fixpoint calls (h : Host) {A : Type} (p : Prog A) (w : World h) : list Made :=
  match p with
  | Ret _ => []
  | Throw _ => []
  | Vis ev k =>
      let (x, w') := perform h ev w in
      match ev with
      | host_call c => made _ c :: calls h (k x) w'
      | heap_op _ => calls h (k x) w'
      end
  end.

(** ** The tools and the server *)

Inductive ArithOp : Type := Plus | Minus | Times | Divide.

(** What the JavaScript runtime and Node's [path] module provide:
    [path.join], [JSON.stringify] (called with indentation 2), [Math.floor],
    [Math.round], the spelling of a number and of a date in a string, and an
    arithmetic operator applied to operands that are not both numbers. *)
Class Runtime : Type := mkRuntime {
  join : string -> string -> string;
  JSON_stringify : JsValue -> string;
  Math_floor : float -> float;
  Math_round : float -> float;
  Number_toString : float -> string;
  Date_toString : float -> string;
  coerce_arith : ArithOp -> JsValue -> JsValue -> JsValue
}.

Section Tools.

Context {rt : Runtime}.

(** ToString, as a template literal applies it: the spelling of a value
    that is not an object, of an array of such values, of a date, and of a
    plain object without a member named [toString] of its own (for an
    object with such a member the conversion throws instead). *)
Fixpoint ToString (v : JsValue) : string :=
  match v with
  | JUndefined => "undefined"
  | JNull => "null"
  | JBool true => "true"
  | JBool false => "false"
  | JNum n => Number_toString n
  | JStr s => s
  | JArr items =>
      String.concat ","
        (map (fun x => match x with
                       | JUndefined => ""
                       | JNull => ""
                       | _ => ToString x
                       end) items)
  | JObj _ => "[object Object]"
  | JDate ms => Date_toString ms
  end.

(** [v === s] for a string literal [s] *)
Definition is_string (v : JsValue) (s : string) : bool :=
  match v with JStr t => String.eqb t s | _ => false end.

(** [v === n] for a number literal [n] *)
Definition is_number (v : JsValue) (n : float) : bool :=
  match v with JNum m => PrimFloat.eqb m n | _ => false end.

(** [x + y], [x - y], [x * y], [x / y] on numbers: binary64 arithmetic. *)
Definition binary64 (op : ArithOp) (x y : float) : float :=
  match op with
  | Plus => x + y
  | Minus => x - y
  | Times => x * y
  | Divide => x / y
  end%float.

Definition arith (op : ArithOp) (a b : JsValue) : JsValue :=
  match a, b with
  | JNum x, JNum y => JNum (binary64 op x y)
  | _, _ => coerce_arith op a b
  end.

Definition float_of_nat (n : nat) : float :=
  PrimFloat.of_uint63 (Uint63.of_Z (Z.of_nat n)).

(** [const { first, ... } = args]: destructuring [undefined] or [null]
    throws; any other value can be read from. *)
Definition destructure {A : Type} (args : JsValue) (first : string)
    (body : Prog A) : Prog A :=
  match args with
  | JUndefined =>
      Throw (Error_ ("Cannot destructure property '" ++ first ++
                     "' of 'args' as it is undefined."))
  | JNull =>
      Throw (Error_ ("Cannot destructure property '" ++ first ++
                     "' of 'args' as it is null."))
  | _ => body
  end.

(** [const { first = ... } = args]: with a default in the pattern the
    member is read before anything else, and it is that read which throws
    on [undefined] or [null]. *)
Definition destructure_default {A : Type} (args : JsValue) (first : string)
    (body : Prog A) : Prog A :=
  match args with
  | JUndefined =>
      Throw (Error_ ("Cannot read properties of undefined (reading '" ++
                     first ++ "')"))
  | JNull =>
      Throw (Error_ ("Cannot read properties of null (reading '" ++
                     first ++ "')"))
  | _ => body
  end.

Definition ok_result (payload : JsValue) : ToolResult :=
  mkResult true (Some payload) None.

(** *** calculator.ts *)

Definition Calculator_schema : InputSchema :=
  mkSchema "object"
    [ ("operation",
       mkProp "string" (Some ["add"; "subtract"; "multiply"; "divide"])
              "The mathematical operation to perform");
      ("a", mkProp "number" None "First number");
      ("b", mkProp "number" None "Second number") ]
    (Some ["operation"; "a"; "b"]).

(** [CalculatorTool.execute] *)
Definition Calculator_execute (args : JsValue) : Prog ToolResult :=
  destructure args "operation" (
    let operation := own_field "operation" args in
    let a := own_field "a" args in
    let b := own_field "b" args in
    let finish (result : JsValue) : Prog ToolResult :=
      Ret (ok_result
             (JObj [ ("operation", operation);
                     ("operands", JObj [("a", a); ("b", b)]);
                     ("result", result) ])) in
    if is_string operation "add" then finish (arith Plus a b)
    else if is_string operation "subtract" then finish (arith Minus a b)
    else if is_string operation "multiply" then finish (arith Times a b)
    else if is_string operation "divide" then
      if is_number b 0
      then Throw (Error_ "Division by zero is not allowed")
      else finish (arith Divide a b)
    else Throw (Error_ ("Unknown operation: " ++ ToString operation))).

(** *** file-operations.ts *)

Definition FileOperations_schema : InputSchema :=
  mkSchema "object"
    [ ("operation",
       mkProp "string" (Some ["read"; "write"; "list"; "info"])
              "The file operation to perform");
      ("path",
       mkProp "string" None "File or directory path (relative to workspace)");
      ("content",
       mkProp "string" None "Content to write (required for write operation)") ]
    (Some ["operation"; "path"]).

(** [FileOperationsTool.validatePath].  The branches for a [path] that is
    not a string are what the two method calls do on such a value. *)
Definition validatePath (workspaceRoot : string) (path : JsValue)
  : Result string :=
  match path with
  | JStr p =>
      if includes ".." p
      then Err (Error_ "Path traversal (..) is not allowed")
      else if startsWith "/" p
      then Err (Error_ "Absolute paths are not allowed")
      else Ok (join workspaceRoot p)
  | JArr items =>
      if existsb (fun x => is_string x "..") items
      then Err (Error_ "Path traversal (..) is not allowed")
      else Err (Error_ "path.startsWith is not a function")
  | JUndefined =>
      Err (Error_ "Cannot read properties of undefined (reading 'includes')")
  | JNull =>
      Err (Error_ "Cannot read properties of null (reading 'includes')")
  | _ => Err (Error_ "path.includes is not a function")
  end.

Definition kind_of (stats : Stats) : JsValue :=
  JStr (if isDirectory stats then "directory" else "file").

(** The callback of [entries.map] in the [list] case, started for every
    entry. *)
Fixpoint stat_each (safePath : string) (entries : list string)
  : Prog (list (string * Result Stats)) :=
  match entries with
  | [] => Ret []
  | entry :: rest =>
      r <- call (FsStat (join safePath entry)) ;;
      rs <- stat_each safePath rest ;;
      Ret ((entry, r) :: rs)
  end.

(** [Promise.all]: the list of values, or a rejection.  The stats run
    together; of several rejections the model surfaces the first in listing
    order. *)
Fixpoint Promise_all (settled : list (string * Result Stats))
  : Prog (list JsValue) :=
  match settled with
  | [] => Ret []
  | (entry, Err e) :: _ => Throw e
  | (entry, Ok stats) :: rest =>
      more <- Promise_all rest ;;
      Ret (JObj [ ("name", JStr entry);
                  ("type", kind_of stats);
                  ("size", JNum (size stats)) ] :: more)
  end.

(** The [switch] inside the [try] block. *)
Definition FileOperations_switch (operation path content : JsValue)
    (safePath : string) : Prog ToolResult :=
  if is_string operation "read" then
    fileContent <- await (FsReadFile safePath) ;;
    Ret (ok_result
           (JObj [ ("path", path);
                   ("content", JStr fileContent);
                   ("size", JNum (float_of_nat (utf16_length fileContent))) ]))
  else if is_string operation "write" then
    if negb (truthy content)
    then Throw (Error_ "Content is required for write operation")
    else
      await (FsWriteFile safePath content) ;;
      Ret (ok_result
             (JObj [ ("path", path);
                     ("message", JStr "File written successfully") ]))
  else if is_string operation "list" then
    entries <- await (FsReaddir safePath) ;;
    settled <- stat_each safePath entries ;;
    fileList <- Promise_all settled ;;
    Ret (ok_result (JObj [ ("path", path); ("entries", JArr fileList) ]))
  else if is_string operation "info" then
    stats <- await (FsStat safePath) ;;
    Ret (ok_result
           (JObj [ ("path", path);
                   ("type", kind_of stats);
                   ("size", JNum (size stats));
                   ("created", JDate (birthtime stats));
                   ("modified", JDate (mtime stats)) ]))
  else Throw (Error_ ("Unknown operation: " ++ ToString operation)).

Definition is_ENOENT (error : JsError) : bool :=
  match code error with
  | Some c => String.eqb c "ENOENT"
  | None => false
  end.

(** The [catch] block.  Every value thrown inside the [try] is an [Error],
    so the final [throw new Error('Unknown error occurred')] is not
    reached. *)
Definition FileOperations_catch (path : JsValue) (error : JsError)
  : Prog ToolResult :=
  if is_ENOENT error
  then Throw (Error_ ("File or directory not found: " ++ ToString path))
  else Throw error.

(** [FileOperationsTool.execute] *)
Definition FileOperations_execute (workspaceRoot : string) (args : JsValue)
  : Prog ToolResult :=
  destructure args "operation" (
    let operation := own_field "operation" args in
    let path := own_field "path" args in
    let content := own_field "content" args in
    safePath <- lift (validatePath workspaceRoot path) ;;
    try_catch (FileOperations_switch operation path content safePath)
              (FileOperations_catch path)).

(** *** system-info.ts *)

Definition SystemInfo_schema : InputSchema :=
  mkSchema "object"
    [ ("detail",
       mkProp "string" (Some ["basic"; "full"])
              "Level of detail (basic or full)") ]
    (Some []).

Definition megabytes (bytes : float) : JsValue :=
  JNum (Math_round (bytes / 1024 / 1024)%float).

(** [cpus()[0]?.model] and [cpus()[0]?.speed] *)
Definition first_model (l : list CpuInfo) : JsValue :=
  match l with [] => JUndefined | c :: _ => JStr (model c) end.

Definition first_speed (l : list CpuInfo) : JsValue :=
  match l with [] => JUndefined | c :: _ => JNum (speed c) end.

(** [SystemInfoTool.execute] *)
Definition SystemInfo_execute (args : JsValue) : Prog ToolResult :=
  destructure_default args "detail" (
    let detail :=
      match own_field "detail" args with
      | JUndefined => JStr "basic"
      | d => d
      end in
    platform <- call OsPlatform ;;
    architecture <- call OsArch ;;
    uptime <- call OsUptime ;;
    total <- call OsTotalmem ;;
    free <- call OsFreemem ;;
    total' <- call OsTotalmem ;;
    free' <- call OsFreemem ;;
    let basicInfo :=
      [ ("platform", JStr platform);
        ("architecture", JStr architecture);
        ("uptime", JNum (Math_floor uptime));
        ("memory", JObj [ ("total", megabytes total);
                          ("free", megabytes free);
                          ("used", megabytes (total' - free')%float) ]) ] in
    if is_string detail "full" then
      cpus1 <- call OsCpus ;;
      cpus2 <- call OsCpus ;;
      cpus3 <- call OsCpus ;;
      Ret (ok_result
             (JObj (basicInfo ++
                    [ ("cpus", JObj [ ("count", JNum (float_of_nat (length cpus1)));
                                      ("model", first_model cpus2);
                                      ("speed", first_speed cpus3) ]) ])))
    else Ret (ok_result (JObj basicInfo))).

(** *** google-adk.ts *)

(** The recorder object; its [logs] array is on the heap. *)
Record GoogleADKIntegration : Type := mkADK { enabled : bool }.

(** [process.env.GOOGLE_ADK_ENABLED === 'true'] *)
Definition flag_enabled (GOOGLE_ADK_ENABLED : option string) : bool :=
  match GOOGLE_ADK_ENABLED with
  | Some v => String.eqb v "true"
  | None => false
  end.

(** [GoogleADKIntegration.initialize]: an empty body. *)
Definition initialize : Prog unit := Ret tt.

(** The constructor. *)
Definition GoogleADKIntegration_new (GOOGLE_ADK_ENABLED : option string)
  : Prog GoogleADKIntegration :=
  let this := mkADK (flag_enabled GOOGLE_ADK_ENABLED) in
  heap LogsNew ;;
  if enabled this then
    call (ConsoleError "[Google ADK] Integration enabled") ;;
    initialize ;;
    Ret this
  else
    call (ConsoleError
      "[Google ADK] Integration disabled (set GOOGLE_ADK_ENABLED=true to enable)") ;;
    Ret this.

(** [GoogleADKIntegration.logToolUsage] *)
Definition logToolUsage (this : GoogleADKIntegration) (toolName : string)
    (arguments_ : JsValue) (result : ToolResult) : Prog unit :=
  now <- call DateNow ;;
  let log := mkLog toolName arguments_ result now None in
  heap (LogsPush log) ;;
  if enabled this then Ret tt else Ret tt.

(** *** index.ts *)

(** A tool instance: what [BaseTool] declares abstract. *)
Record Tool : Type := mkTool {
  name : string;
  description : string;
  inputSchema : InputSchema;
  execute : JsValue -> Prog ToolResult
}.

(** [BaseTool.getDefinition] *)
Definition getDefinition (tool : Tool) : ToolDefinition :=
  mkDefinition (name tool) (description tool) (inputSchema tool).

Definition CalculatorTool : Tool :=
  mkTool "calculator"
    "Perform basic mathematical calculations (add, subtract, multiply, divide)"
    Calculator_schema Calculator_execute.

Definition FileOperationsTool (workspaceRoot : string) : Tool :=
  mkTool "file_operations"
    "Read, write, and list files in the current workspace"
    FileOperations_schema (FileOperations_execute workspaceRoot).

Definition SystemInfoTool : Tool :=
  mkTool "system_info"
    "Get information about the system (platform, CPU, memory, uptime)"
    SystemInfo_schema SystemInfo_execute.

(** A JavaScript [Map] with string keys: [set] replaces the value of a key
    that is present and keeps its place, and appends a new key. *)
Fixpoint Map_set {V : Type} (k : string) (v : V) (m : list (string * V))
  : list (string * V) :=
  match m with
  | [] => [(k, v)]
  | (k', v') :: rest =>
      if String.eqb k k' then (k, v) :: rest else (k', v') :: Map_set k v rest
  end.

Definition Map_get {V : Type} (k : string) (m : list (string * V)) : option V :=
  lookup k m.

Definition Map_values {V : Type} (m : list (string * V)) : list V :=
  map snd m.

(** The array in [registerTools]; [cwd] is [process.cwd()], the default
    workspace root. *)
Definition toolInstances (cwd : string) : list Tool :=
  [ CalculatorTool; FileOperationsTool cwd; SystemInfoTool ].

(** [MCPServerDemo.registerTools], from the empty map. *)
Definition registerTools (cwd : string) : list (string * Tool) :=
  fold_left (fun tools tool => Map_set (name tool) tool tools)
            (toolInstances cwd) [].

Record MCPServerDemo : Type := mkServer {
  tools : list (string * Tool);
  googleADK : GoogleADKIntegration
}.

(** The constructor, as far as the handlers depend on it. *)
Definition MCPServerDemo_new (cwd : string) (GOOGLE_ADK_ENABLED : option string)
  : Prog MCPServerDemo :=
  let tools := registerTools cwd in
  googleADK <- GoogleADKIntegration_new GOOGLE_ADK_ENABLED ;;
  Ret (mkServer tools googleADK).

Record TextContent : Type := mkText { c_type : string; c_text : string }.

Record CallToolResult : Type := mkCallResult {
  content : list TextContent;
  isError : option bool
}.

Record ResourceContents : Type := mkContents {
  r_uri : string;
  r_mimeType : string;
  r_text : string
}.

Record Resource : Type := mkResource {
  uri : string;
  res_name : string;
  res_description : string;
  mimeType : string
}.

(** The object a tool returns, as [JSON.stringify] and the recorder see
    it. *)
Definition ToolResult_value (r : ToolResult) : JsValue :=
  JObj ([("success", JBool (success r))]
        ++ match data r with Some d => [("data", d)] | None => [] end
        ++ match error r with Some e => [("error", JStr e)] | None => [] end).

(** The handler of [tools/list]. *)
Definition listTools (this : MCPServerDemo) : Prog (list ToolDefinition) :=
  let toolList := map getDefinition (Map_values (tools this)) in
  Ret toolList.

(** The body of the [try] block of the [tools/call] handler. *)
Definition callTool_try (this : MCPServerDemo) (tool : Tool) (name : string)
    (args : JsValue) : Prog CallToolResult :=
  lift (validateArguments (inputSchema tool) args) ;;
  result <- execute tool args ;;
  logToolUsage (googleADK this) name args result ;;
  Ret (mkCallResult
         [ mkText "text" (JSON_stringify (ToolResult_value result)) ]
         None).

(** Its [catch] block. *)
Definition callTool_catch (error : JsError) : Prog CallToolResult :=
  let errorMessage := message error in
  Ret (mkCallResult [ mkText "text" ("Error: " ++ errorMessage) ] (Some true)).

(** The handler of [tools/call].  A [Throw] leaves the handler: the
    protocol library answers it with a JSON-RPC error, not a result. *)
Definition callTool (this : MCPServerDemo) (name : string) (args : JsValue)
  : Prog CallToolResult :=
  match Map_get name (tools this) with
  | None => Throw (Error_ ("Tool " ++ dquote ++ name ++ dquote ++ " not found"))
  | Some tool =>
      try_catch (callTool_try this tool name args) callTool_catch
  end.

(** The handler of [resources/list]. *)
Definition listResources : Prog (list Resource) :=
  Ret [ mkResource "file:///system-info" "System Information"
                   "Current system information" "application/json" ].

(** The handler of [resources/read]. *)
Definition readResource (uri : string) : Prog (list ResourceContents) :=
  if String.eqb uri "file:///system-info" then
    systemInfo <- execute SystemInfoTool (JObj []) ;;
    Ret [ mkContents uri "application/json"
                     (JSON_stringify (ToolResult_value systemInfo)) ]
  else Throw (Error_ ("Resource " ++ dquote ++ uri ++ dquote ++ " not found")).

(** The four requests the server registers a handler for, and what each
    answers. *)
Inductive Request : Type :=
| ListTools
| CallTool (name : string) (arguments : JsValue)
| ListResources
| ReadResource (uri : string).

Inductive Response : Type :=
| ToolsListed (tools : list ToolDefinition)
| ToolCalled (result : CallToolResult)
| ResourcesListed (resources : list Resource)
| ResourceRead (contents : list ResourceContents).

Definition handle (this : MCPServerDemo) (request : Request) : Prog Response :=
  match request with
  | ListTools => r <- listTools this ;; Ret (ToolsListed r)
  | CallTool name args => r <- callTool this name args ;; Ret (ToolCalled r)
  | ListResources => r <- listResources ;; Ret (ResourcesListed r)
  | ReadResource uri => r <- readResource uri ;; Ret (ResourceRead r)
  end.

(** Serving requests one after the other: the outcomes, oldest first. *)
Fixpoint serve (h : Host) (this : MCPServerDemo) (requests : list Request)
    (w : World h) : list (Result Response) * World h :=
  match requests with
  | [] => ([], w)
  | request :: rest =>
      let (r, w') := run h (handle this request) w in
      let (rs, w'') := serve h this rest w' in
      (r :: rs, w'')
  end.

(** *** google-adk.ts: statistics and fulfillment *)

(** What [getUsageStats] returns.  [toolBreakdown] is an object used as a
    map, read here by [lookup]; its list is in insertion order (JavaScript
    would enumerate names that spell an array index first). *)
Record UsageStats : Type := mkUsageStats {
  totalCalls : float;
  toolBreakdown : list (string * JsValue);
  recentCalls : list ToolUsageLog
}.

(** [x || y] *)
Definition js_or (x y : JsValue) : JsValue := if truthy x then x else y.

(** The text of the function an object inherits under a name of
    [Object.prototype], as adding a number to it spells it. *)
Variable member_text : string -> string.

(** [toolBreakdown[name] = (toolBreakdown[name] || 0) + 1].  A name the
    object does not own reads as [undefined], unless it is inherited: then
    it reads as a function, the sum is a string, and the assignment creates
    an own member, except under [__proto__], where assigning a string does
    nothing. *)
Definition count_call (name : string) (toolBreakdown : list (string * JsValue))
  : list (string * JsValue) :=
  match lookup name toolBreakdown with
  | Some current =>
      Map_set name (arith Plus (js_or current (JNum 0)) (JNum 1)) toolBreakdown
  | None =>
      if String.eqb name "__proto__" then toolBreakdown
      else if mem name Object_prototype_names
      then Map_set name (JStr (member_text name ++ "1")) toolBreakdown
      else Map_set name (arith Plus (js_or JUndefined (JNum 0)) (JNum 1))
                   toolBreakdown
  end.

(** [GoogleADKIntegration.getUsageStats], on the content of [this.logs]. *)
Definition getUsageStats (logs : list ToolUsageLog) : UsageStats :=
  let toolBreakdown :=
    fold_left (fun breakdown log => count_call (toolName log) breakdown)
              logs [] in
  mkUsageStats (float_of_nat (length logs))
               toolBreakdown
               (skipn (length logs - 10) logs).

(** [GoogleADKIntegration.handleFulfillmentRequest] *)
Definition handleFulfillmentRequest (this : GoogleADKIntegration)
    (_request : JsValue) : Prog JsValue :=
  if negb (enabled this)
  then Throw (Error_ "Google ADK integration is not enabled")
  else
    Ret (JObj [ ("fulfillmentText", JStr "MCP Server Demo is ready");
                ("fulfillmentMessages",
                 JArr [ JObj [ ("text",
                                JObj [ ("text",
                                        JArr [ JStr "Hello from MCP Server Demo!" ]) ]) ] ]) ]).

End Tools.

(** The loop of [registerTools], over any array of tool instances and from
    any map. *)
Definition register_all (toolInstances : list Tool)
    (tools : list (string * Tool)) : list (string * Tool) :=
  fold_left (fun tools tool => Map_set (name tool) tool tools)
            toolInstances tools.

(** A program that makes host calls only: it does not touch the recorder's
    array. *)
Inductive host_only {A : Type} : Prog A -> Prop :=
| host_only_Ret (a : A) : host_only (Ret a)
| host_only_Throw (e : JsError) : host_only (Throw e)
| host_only_Vis (X : Type) (c : HostCall X) (k : X -> Prog A) :
    (forall x, host_only (k x)) -> host_only (Vis (host_call c) k).

(** A call that writes a file. *)
Definition is_write (m : Made) : bool :=
  match m with
  | made _ (FsWriteFile _ _) => true
  | _ => false
  end.

(** The state of the host after it has answered a sequence of calls. *)
Fixpoint after_calls (h : Host) (script : list Made) (s : host_state h)
  : host_state h :=
  match script with
  | [] => s
  | made X c :: rest => after_calls h rest (snd (answer h X c s))
  end.

(** The responses of a served sequence that are tool results without error
    marker. *)
Definition is_success (r : Result Response) : bool :=
  match r with
  | Ok (ToolCalled result) =>
      match isError result with None => true | Some _ => false end
  | _ => false
  end.

(** [(count || 0) + 1] on a number. *)
Definition next_count (count : float) : float :=
  ((if truthy (JNum count) then count else 0) + 1)%float.

(** The log entries of a tool. *)
Definition calls_of (name : string) (logs : list ToolUsageLog)
  : list ToolUsageLog :=
  filter (fun log => String.eqb (toolName log) name) logs.

(** ** Notions the statements use *)

(** The response of the [tools/call] handler's [catch] block. *)
Definition error_envelope (msg : string) : CallToolResult :=
  mkCallResult [ mkText "text" ("Error: " ++ msg) ] (Some true).

(** The operation a calculator [operation] string selects. *)
Definition operation_named (s : string) : option ArithOp :=
  if String.eqb s "add" then Some Plus
  else if String.eqb s "subtract" then Some Minus
  else if String.eqb s "multiply" then Some Times
  else if String.eqb s "divide" then Some Divide
  else None.

(** An object: an array, a plain object or a date. *)
Definition is_object (v : JsValue) : Prop :=
  match v with
  | JArr _ | JObj _ | JDate _ => True
  | _ => False
  end.

(** The schema's required set; none when the schema has no [required]. *)
Definition declared_required (schema : InputSchema) : list string :=
  match required schema with Some r => r | None => [] end.

(** The declared types that are checked. *)
Definition checked_type (t : string) : Prop :=
  t = "number" \/ t = "string" \/ t = "boolean".

(** The keys the arguments supply, with their values. *)
Definition supplied (args : JsValue) : list (string * JsValue) :=
  Object_entries args.

(** The rule of the specification, in its words: the arguments are absent
    or not an object; or a required name is absent from them; or a supplied
    key the schema declares as number, string or boolean carries a value of
    another runtime type. *)
Definition spec_rejects (schema : InputSchema) (args : JsValue) : Prop :=
  ~ is_object args \/
  (exists field,
      In field (declared_required schema) /\
      ~ In field (map fst (supplied args))) \/
  (exists key value p,
      In (key, value) (supplied args) /\
      lookup key (properties schema) = Some p /\
      checked_type (p_type p) /\
      typeof value <> p_type p).

(** The payload at [basic] detail. *)
Definition basic_payload (platform architecture : string)
    (uptime total free used : float) : JsValue :=
  JObj [ ("platform", JStr platform);
         ("architecture", JStr architecture);
         ("uptime", JNum uptime);
         ("memory", JObj [ ("total", JNum total);
                           ("free", JNum free);
                           ("used", JNum used) ]) ].

(** The host calls one evaluation of [basicInfo] makes. *)
Definition basic_calls : list Made :=
  [ made _ OsPlatform; made _ OsArch; made _ OsUptime;
    made _ OsTotalmem; made _ OsFreemem; made _ OsTotalmem; made _ OsFreemem ].

(** A schema with every [enum] taken out. *)
Definition without_enum (p : PropertySchema) : PropertySchema :=
  mkProp (p_type p) None (p_description p).

Definition without_enums (schema : InputSchema) : InputSchema :=
  mkSchema (s_type schema)
           (map (fun kp => (fst kp, without_enum (snd kp))) (properties schema))
           (required schema).

(** The system error a file-system call was answered with, if any. *)
Definition rejection {X : Type} (c : HostCall X) : X -> option JsError :=
  match c in HostCall T return T -> option JsError with
  | FsReadFile _ => fun r => match r with Err e => Some e | Ok _ => None end
  | FsWriteFile _ _ => fun r => match r with Err e => Some e | Ok _ => None end
  | FsReaddir _ => fun r => match r with Err e => Some e | Ok _ => None end
  | FsStat _ => fun r => match r with Err e => Some e | Ok _ => None end
  | _ => fun _ => None
  end.

(** The first file-system fault a program meets when run. *)
Fixpoint first_rejection (h : Host) {A : Type} (p : Prog A) (w : World h)
  : option JsError :=
  match p with
  | Ret _ => None
  | Throw _ => None
  | Vis ev k =>
      let (x, w') := perform h ev w in
      match (match ev with
             | host_call c => rejection c x
             | heap_op _ => None
             end) with
      | Some e => Some e
      | None => first_rejection h (k x) w'
      end
  end.

(** The first fault among settled stats, in listing order. *)
Fixpoint first_fault (settled : list (string * Result Stats))
  : option JsError :=
  match settled with
  | [] => None
  | (_, Err e) :: _ => Some e
  | (_, Ok _) :: rest => first_fault rest
  end.

(** The rational number a finite binary64 value stands for. *)
Definition exact (x : float) : option Q :=
  match Prim2SF x with
  | S754_zero _ => Some 0%Q
  | S754_finite s m e =>
      Some (Qred ((if s then -1 else 1) * (Zpos m # 1) * Qpower 2 e)%Q)
  | S754_infinity _ => None
  | S754_nan => None
  end.

(** ** A sample runtime, host and server

    Stand-ins on which the statements are evaluated: a runtime whose
    [path.join] puts a slash between its arguments, and a host that counts
    the calls it answers, finds no file to read, refuses to write, and lists
    one file per directory. *)

Definition sample_runtime : Runtime :=
  mkRuntime (fun root p => (root ++ "/" ++ p)%string)
            (fun _ => "{}")
            (fun x => x)
            (fun x => x)
            (fun _ => "0")
            (fun _ => "1970-01-01T00:00:00.000Z")
            (fun _ _ _ => JNum nan).

Definition sample_answer (X : Type) (c : HostCall X) (n : nat) : X * nat :=
  match c in HostCall T return T * nat with
  | FsReadFile _ =>
      (Err (mkError "ENOENT: no such file or directory" (Some "ENOENT")), S n)
  | FsWriteFile _ _ =>
      (Err (mkError "EACCES: permission denied" (Some "EACCES")), S n)
  | FsReaddir _ => (Ok ["notes.txt"], S n)
  | FsStat _ => (Ok (mkStats false 12 0 0), S n)
  | OsPlatform => ("linux", S n)
  | OsArch => ("x64", S n)
  | OsUptime => (3600.5%float, S n)
  | OsTotalmem => (8589934592%float, S n)
  | OsFreemem => (4294967296%float, S n)
  | OsCpus => ([mkCpu "cpu" 2400], S n)
  | DateNow => (0%float, S n)
  | ConsoleError _ => (tt, S n)
  end.

Definition sample_host : Host := mkHost nat sample_answer.

Definition sample_world : World sample_host := mkWorld (h := sample_host) 0 [].

Definition sample_server : MCPServerDemo :=
  mkServer (registerTools (rt := sample_runtime) "/srv") (mkADK false).

Definition traversal_args : JsValue :=
  JObj [ ("operation", JStr "read"); ("path", JStr "../etc/passwd") ].

Definition missing_file_args : JsValue :=
  JObj [ ("operation", JStr "read"); ("path", JStr "missing.txt") ].

Definition multiply_args : JsValue :=
  JObj [ ("operation", JStr "multiply"); ("a", JNum 6); ("b", JNum 7) ].

Definition divide_by_zero_args : JsValue :=
  JObj [ ("operation", JStr "divide"); ("a", JNum 1); ("b", JNum 0) ].

Definition big_sum_args : JsValue :=
  JObj [ ("operation", JStr "add");
         ("a", JNum 9007199254740992); ("b", JNum 1) ].

Definition mistyped_args : JsValue :=
  JObj [ ("operation", JStr "add"); ("a", JStr "1"); ("b", JNum 2) ].

(** ** Further notions and samples *)

(** An entry passes the type check: it is not declared, or not declared
    with a checked type, or its value has the declared type. *)
Definition entry_passes (props : list (string * PropertySchema))
    (kv : string * JsValue) : Prop :=
  forall p, lookup (fst kv) props = Some p -> checked_type (p_type p) ->
            typeof (snd kv) = p_type p.

(** The operation a calculator [operation] member selects, if any. *)
Definition calculator_operation (operation : JsValue) : option ArithOp :=
  match operation with
  | JStr s => operation_named s
  | _ => None
  end.

(** What the calculator does with a string operation and two numbers. *)
Definition calculator_outcome (s : string) (a b : float) : Prog ToolResult :=
  match operation_named s with
  | None => Throw (Error_ ("Unknown operation: " ++ s))
  | Some op =>
      if match op with Divide => PrimFloat.eqb b 0 | _ => false end
      then Throw (Error_ "Division by zero is not allowed")
      else
        Ret (mkResult true
               (Some (JObj [ ("operation", JStr s);
                             ("operands", JObj [("a", JNum a); ("b", JNum b)]);
                             ("result", JNum (binary64 op a b)) ]))
               None)
  end.

(** An [operation] member the file tool has a case for. *)
Definition known_file_operation (operation : JsValue) : bool :=
  is_string operation "read" || is_string operation "write" ||
  is_string operation "list" || is_string operation "info".

(** What the request schema of [tools/call] admits as [params.arguments]:
    nothing, or a record.  The handler is registered under that schema, so
    these are the arguments it is given. *)
Definition request_arguments (arguments : option (list (string * JsValue)))
  : JsValue :=
  match arguments with
  | None => JUndefined
  | Some props => JObj props
  end.

(** The calls of the file tool for an operation on a resolved path, from a
    given world: [read] reads the path; [write] writes the content to it,
    when there is content; [list] reads the directory and then stats, in
    their order, the names the host has just listed; [info] stats the path;
    any other operation makes no call. *)
Definition file_calls {rt : Runtime} (h : Host) (operation content : JsValue)
    (safePath : string) (w : World h) : list Made :=
  if is_string operation "read" then [ made _ (FsReadFile safePath) ]
  else if is_string operation "write" then
    if truthy content then [ made _ (FsWriteFile safePath content) ] else []
  else if is_string operation "list" then
    made _ (FsReaddir safePath) ::
    match fst (answer h _ (FsReaddir safePath) (outside w)) with
    | Ok names => map (fun entry => made _ (FsStat (join safePath entry))) names
    | Err _ => []
    end
  else if is_string operation "info" then [ made _ (FsStat safePath) ]
  else [].

(** The host calls of an execution at [full] detail. *)
Definition full_calls : list Made :=
  basic_calls ++ [ made _ OsCpus; made _ OsCpus; made _ OsCpus ].

(** What the host answers to the call [c] when it comes after the first
    [k] calls of an execution at [full] detail that starts in [w]. *)
Definition reading (h : Host) (w : World h) (k : nat) {X : Type}
    (c : HostCall X) : X :=
  fst (answer h X c (after_calls h (firstn k full_calls) (outside w))).

(** The names the recorder is given while a sequence of requests is
    served: those of the tool calls answered without error marker. *)
Fixpoint recorded (requests : list Request) (responses : list (Result Response))
  : list string :=
  match requests, responses with
  | request :: requests', response :: responses' =>
      match request with
      | CallTool n _ => if is_success response then [n] else []
      | _ => []
      end ++ recorded requests' responses'
  | _, _ => []
  end.

(** What the breakdown holds for a tool after [count] recorded calls. *)
Definition tally (count : nat) : option JsValue :=
  match count with
  | 0 => None
  | S _ => Some (JNum (Nat.iter count next_count 0%float))
  end.

(** A check that counting from [x], the value for [z] calls, the next
    [fuel] values of the breakdown are the numbers [z], [z + 1], ... *)
Fixpoint counts_agree (fuel : nat) (z : Z) (x : float) : bool :=
  match fuel with
  | 0 => true
  | S fuel' =>
      if PrimFloat.Leibniz.eqb x (PrimFloat.of_uint63 (Uint63.of_Z z))
      then counts_agree fuel' (z + 1) (next_count x)
      else false
  end.

(** A second sample host: it holds a file with the text [hello], accepts
    writes, and lists a file and a directory. *)
Definition friendly_answer (X : Type) (c : HostCall X) (n : nat) : X * nat :=
  match c in HostCall T return T * nat with
  | FsReadFile _ => (Ok "hello", S n)
  | FsWriteFile _ _ => (Ok tt, S n)
  | FsReaddir _ => (Ok ["notes.txt"; "src"], S n)
  | FsStat q => (Ok (mkStats (String.eqb q "/srv/./src") 12 0 0), S n)
  | OsPlatform => ("linux", S n)
  | OsArch => ("x64", S n)
  | OsUptime => (3600.5%float, S n)
  | OsTotalmem => (8589934592%float, S n)
  | OsFreemem => (4294967296%float, S n)
  | OsCpus => ([], S n)
  | DateNow => (0%float, S n)
  | ConsoleError _ => (tt, S n)
  end.

Definition friendly_host : Host := mkHost nat friendly_answer.

Definition friendly_world : World friendly_host :=
  mkWorld (h := friendly_host) 0 [].

(** A third sample host: the file it holds is the euro sign followed by
    the digit five (four bytes in UTF-8, two characters). *)
Definition euro_text : string :=
  String (ascii_of_nat 226)
    (String (ascii_of_nat 130) (String (ascii_of_nat 172) "5")).

Definition euro_answer (X : Type) (c : HostCall X) (n : nat) : X * nat :=
  match c in HostCall T return T * nat with
  | FsReadFile _ => (Ok euro_text, S n)
  | other => friendly_answer _ other n
  end.

Definition euro_host : Host := mkHost nat euro_answer.

Definition euro_world : World euro_host := mkWorld (h := euro_host) 0 [].

Definition sample_member_text (member : string) : string :=
  "function " ++ member ++ "() { [native code] }".

Definition read_notes_args : JsValue :=
  JObj [ ("operation", JStr "read"); ("path", JStr "notes.txt") ].

Definition list_here_args : JsValue :=
  JObj [ ("operation", JStr "list"); ("path", JStr ".") ].

Definition write_empty_args : JsValue :=
  JObj [ ("operation", JStr "write"); ("path", JStr "notes.txt");
         ("content", JStr "") ].

Definition delete_args : JsValue :=
  JObj [ ("operation", JStr "delete"); ("path", JStr "notes.txt") ].

Definition power_args : JsValue :=
  JObj [ ("operation", JStr "power"); ("a", JNum 2); ("b", JNum 3) ].

Definition no_a_args : JsValue :=
  JObj [ ("operation", JStr "add"); ("b", JStr "x") ].

Definition full_detail_args : JsValue := JObj [ ("detail", JStr "full") ].

Definition sample_logs : list ToolUsageLog :=
  [ mkLog "calculator" multiply_args (mkResult true None None) 0 None;
    mkLog "system_info" (JObj []) (mkResult true None None) 1 None;
    mkLog "calculator" multiply_args (mkResult true None None) 2 None ].


(** ** Running programs, strings, validation *)

Lemma run_bind (h : Host) {A B : Type} (p : Prog A) (f : A -> Prog B)
    (w : World h) :
  run h (bind p f) w =
  match run h p w with
  | (Ok a, w') => run h (f a) w'
  | (Err e, w') => (Err e, w')
  end.
Proof.
  revert w. induction p as [a | e | X ev k IH]; intro w; simpl.
  - reflexivity.
  - reflexivity.
  - destruct (perform h ev w) as [x w']. apply IH.
Qed.

Lemma run_try_catch (h : Host) {A : Type} (p : Prog A)
    (handler : JsError -> Prog A) (w : World h) :
  run h (try_catch p handler) w =
  match run h p w with
  | (Ok a, w') => (Ok a, w')
  | (Err e, w') => run h (handler e) w'
  end.
Proof.
  revert w. induction p as [a | e | X ev k IH]; intro w; simpl.
  - reflexivity.
  - reflexivity.
  - destruct (perform h ev w) as [x w']. apply IH.
Qed.

Lemma run_lift (h : Host) {A : Type} (r : Result A) (w : World h) :
  run h (lift r) w = (r, w).
Proof. destruct r; reflexivity. Qed.

Lemma prefix_iff (a b : string) :
  String.prefix a b = true <-> exists v, b = (a ++ v)%string.
Proof.
  revert b. induction a as [| c a IH]; intro b.
  - split; [intros _; exists b; reflexivity | intros _; destruct b; reflexivity].
  - destruct b as [| d b]; simpl.
    + split; [discriminate | intros [v Hv]; discriminate].
    + destruct (Ascii.ascii_dec c d) as [-> | Hne].
      * rewrite IH. split; intros [v Hv]; exists v.
        -- now rewrite Hv.
        -- now inversion Hv.
      * split; [discriminate | intros [v Hv]; inversion Hv; congruence].
Qed.

Lemma includes_iff (needle hay : string) :
  includes needle hay = true <-> exists u v, hay = (u ++ needle ++ v)%string.
Proof.
  induction hay as [| c hay IH]; cbn [includes].
  - rewrite orb_false_r, prefix_iff. split.
    + intros [v Hv]. exists "", v. exact Hv.
    + intros [u [v Hv]]. destruct u; [exists v; exact Hv | discriminate].
  - rewrite orb_true_iff, prefix_iff, IH. split.
    + intros [[v Hv] | [u [v Hv]]].
      * exists "", v. exact Hv.
      * exists (String c u), v. simpl. now rewrite Hv.
    + intros [u [v Hv]]. destruct u as [| d u]; simpl in Hv.
      * left. exists v. exact Hv.
      * right. exists u, v. now inversion Hv.
Qed.

Lemma mem_iff (k : string) (l : list string) : mem k l = true <-> In k l.
Proof.
  unfold mem. rewrite existsb_exists. split.
  - intros [x [Hin Heq]]. apply String.eqb_eq in Heq. now subst.
  - intro Hin. exists k. split; [exact Hin | apply String.eqb_refl].
Qed.

Lemma object_test (args : JsValue) :
  negb (truthy args) || negb (String.eqb (typeof args) "object") = false
  <-> is_object args.
Proof.
  destruct args as [| | b | n | s | items | props | ms]; simpl;
    try (split; [discriminate | contradiction]);
    try (split; [reflexivity | trivial]).
  - destruct b; simpl; split; (discriminate || contradiction).
  - rewrite orb_true_r. split; (discriminate || contradiction).
  - rewrite orb_true_r. split; (discriminate || contradiction).
Qed.

Lemma builtin_names_known (v : JsValue) (k : string) :
  In k (builtin_names v) -> In k all_builtin_names.
Proof.
  unfold all_builtin_names. rewrite !in_app_iff.
  destruct v; cbn [builtin_names]; rewrite ?in_app_iff; intro H;
    try tauto; destruct H.
Qed.

Lemma js_in_supplied (field : string) (args : JsValue) :
  ~ In field all_builtin_names ->
  js_in field args = false <-> ~ In field (map fst (supplied args)).
Proof.
  intro Hplain. unfold js_in, supplied.
  assert (Hb : mem field (builtin_names args) = false).
  { destruct (mem field (builtin_names args)) eqn:E; [| reflexivity].
    apply mem_iff, builtin_names_known in E. contradiction. }
  rewrite Hb, orb_false_r, <- mem_iff.
  destruct (mem field (map fst (Object_entries args))); split; congruence.
Qed.

Lemma check_required_rejects (fields : list string) (args : JsValue) :
  is_Err (check_required fields args) = true <->
  exists field, In field fields /\ js_in field args = false.
Proof.
  induction fields as [| f rest IH]; simpl.
  - split; [discriminate | intros [x [[] _]]].
  - destruct (js_in f args) eqn:E; simpl.
    + rewrite IH. split.
      * intros [x [Hin Hx]]. exists x. auto.
      * intros [x [[-> | Hin] Hx]]; [congruence | exists x; auto].
    + split; [intros _; exists f; auto | reflexivity].
Qed.

Lemma check_required_accepts (fields : list string) (args : JsValue) :
  is_Err (check_required fields args) = false ->
  check_required fields args = Ok tt.
Proof. destruct (check_required fields args) as [[] |]; [reflexivity | discriminate]. Qed.

Lemma check_type_rejects (key t : string) (v : JsValue) :
  is_Err (check_type key t v) = true <-> checked_type t /\ typeof v <> t.
Proof.
  unfold check_type, checked_type.
  destruct (String.eqb_spec t "number") as [-> | Hn]; simpl.
  - destruct (String.eqb_spec (typeof v) "number") as [E | E]; simpl.
    + split; [discriminate | intros [_ H]; contradiction].
    + split; [intros _; auto | reflexivity].
  - destruct (String.eqb_spec t "string") as [-> | Hs]; simpl.
    + destruct (String.eqb_spec (typeof v) "string") as [E | E]; simpl.
      * split; [discriminate | intros [_ H]; contradiction].
      * split; [intros _; auto | reflexivity].
    + destruct (String.eqb_spec t "boolean") as [-> | Hb]; simpl.
      * destruct (String.eqb_spec (typeof v) "boolean") as [E | E]; simpl.
        -- split; [discriminate | intros [_ H]; contradiction].
        -- split; [intros _; auto | reflexivity].
      * split; [discriminate | intros [[H | [H | H]] _]; contradiction].
Qed.

Lemma check_types_rejects (props : list (string * PropertySchema))
    (entries : list (string * JsValue)) :
  is_Err (check_types props entries) = true <->
  exists key value p,
    In (key, value) entries /\ lookup key props = Some p /\
    is_Err (check_type key (p_type p) value) = true.
Proof.
  induction entries as [| [k v] rest IH]; simpl.
  - split; [discriminate | intros [key [value [p [[] _]]]]].
  - destruct (lookup k props) as [p |] eqn:Hl.
    + destruct (check_type k (p_type p) v) as [[] | e] eqn:Hc; simpl.
      * rewrite IH. split.
        -- intros [key [value [q [Hin H]]]]. exists key, value, q. auto.
        -- intros [key [value [q [[Heq | Hin] [Hq He]]]]].
           ++ inversion Heq; subst. rewrite Hl in Hq. inversion Hq; subst.
              rewrite Hc in He. discriminate.
           ++ exists key, value, q. auto.
      * split; [intros _ | reflexivity].
        exists k, v, p. rewrite Hc. auto.
    + rewrite IH. split.
      * intros [key [value [q [Hin H]]]]. exists key, value, q. auto.
      * intros [key [value [q [[Heq | Hin] [Hq He]]]]].
        -- inversion Heq; subst. congruence.
        -- exists key, value, q. auto.
Qed.

(** C5. For a schema none of whose required names is a built-in member
    name (as for the three registered tools), and for every arguments
    value, [validateArguments] throws exactly when the specification's
    rule rejects. *)
Theorem validation_rejects_exactly :
  forall (schema : InputSchema) (args : JsValue),
    (forall field, In field (declared_required schema) ->
                   ~ In field all_builtin_names) ->
    is_Err (validateArguments schema args) = true <-> spec_rejects schema args.
Proof.
  intros schema args Hplain. unfold validateArguments, spec_rejects.
  fold (declared_required schema).
  destruct (negb (truthy args) || negb (String.eqb (typeof args) "object"))
    eqn:Htest.
  - split; [intros _; left | reflexivity].
    intro Hobj. apply object_test in Hobj. congruence.
  - apply object_test in Htest.
    destruct (is_Err (check_required (declared_required schema) args)) eqn:Hreq.
    + assert (Hrej := Hreq). apply check_required_rejects in Hrej.
      destruct Hrej as [field [Hin Hmiss]].
      destruct (check_required (declared_required schema) args);
        [discriminate |]. simpl.
      split; [intros _ | reflexivity].
      right; left. exists field. split; [exact Hin |].
      apply js_in_supplied; auto.
    + rewrite (check_required_accepts _ _ Hreq). simpl.
      rewrite check_types_rejects. split.
      * intros [key [value [p [Hin [Hl He]]]]].
        apply check_type_rejects in He. right; right.
        exists key, value, p. tauto.
      * intros [Hno | [[field [Hin Hmiss]] | [key [value [p [Hin [Hl He]]]]]]].
        -- contradiction.
        -- exfalso. apply js_in_supplied in Hmiss; auto.
           assert (Hsome : is_Err (check_required (declared_required schema) args)
                           = true)
             by (apply check_required_rejects; exists field; auto).
           congruence.
        -- exists key, value, p. rewrite check_type_rejects. tauto.
Qed.

Lemma lookup_without_enums (k : string) (props : list (string * PropertySchema)) :
  lookup k (map (fun kp => (fst kp, without_enum (snd kp))) props)
  = option_map without_enum (lookup k props).
Proof.
  induction props as [| [k' p] rest IH]; simpl; [reflexivity |].
  destruct (String.eqb k k'); [reflexivity | exact IH].
Qed.

Lemma validateArguments_without_enums (schema : InputSchema) (args : JsValue) :
  validateArguments schema args = validateArguments (without_enums schema) args.
Proof.
  unfold validateArguments. simpl.
  destruct (negb (truthy args) || negb (String.eqb (typeof args) "object"));
    [reflexivity |].
  destruct (check_required _ args); [| reflexivity]. simpl.
  induction (Object_entries args) as [| [k v] rest IH]; simpl; [reflexivity |].
  rewrite lookup_without_enums.
  destruct (lookup k (properties schema)) as [p |]; simpl; [| exact IH].
  destruct (check_type k (p_type p) v); simpl; [exact IH | reflexivity].
Qed.

(** No event reads the recorder's array: what a program returns, and what
    it does to the host, do not depend on the array's content. *)
Lemma run_ignores_logs (h : Host) {A : Type} (p : Prog A) :
  forall (s : host_state h) (l1 l2 : list ToolUsageLog),
    fst (run h p (mkWorld s l1)) = fst (run h p (mkWorld s l2)) /\
    outside (snd (run h p (mkWorld s l1)))
    = outside (snd (run h p (mkWorld s l2))).
Proof.
  induction p as [a | e | X ev k IH]; intros s l1 l2; simpl.
  - split; reflexivity.
  - split; reflexivity.
  - destruct ev as [c | o]; simpl.
    + destruct (answer h X c s) as [x s']. apply IH.
    + destruct o; simpl; apply IH.
Qed.

Lemma first_rejection_bind (h : Host) {A B : Type} (p : Prog A)
    (f : A -> Prog B) (w : World h) :
  first_rejection h (bind p f) w =
  match first_rejection h p w with
  | Some e => Some e
  | None =>
      match run h p w with
      | (Ok a, w') => first_rejection h (f a) w'
      | (Err _, _) => None
      end
  end.
Proof.
  revert w. induction p as [a | e | X ev k IH]; intro w; simpl;
    try reflexivity.
  destruct (perform h ev w) as [x w'].
  destruct (match ev with host_call c => rejection c x | heap_op _ => None end);
    [reflexivity | apply IH].
Qed.

Lemma first_rejection_try_catch (h : Host) {A : Type} (p : Prog A)
    (handler : JsError -> Prog A) (w : World h) :
  first_rejection h (try_catch p handler) w =
  match first_rejection h p w with
  | Some e => Some e
  | None =>
      match run h p w with
      | (Ok _, _) => None
      | (Err e, w') => first_rejection h (handler e) w'
      end
  end.
Proof.
  revert w. induction p as [a | e | X ev k IH]; intro w; simpl;
    try reflexivity.
  destruct (perform h ev w) as [x w'].
  destruct (match ev with host_call c => rejection c x | heap_op _ => None end);
    [reflexivity | apply IH].
Qed.

(** An awaited file-system call: its fault is thrown, its value returned. *)
Lemma await_outcome (h : Host) {X : Type} (c : HostCall (Result X))
    (w : World h) :
  (forall r, rejection c r = match r with Err e => Some e | Ok _ => None end) ->
  exists r w',
    run h (await c) w = (r, w') /\
    first_rejection h (await c) w
    = match r with Err e => Some e | Ok _ => None end.
Proof.
  intro Hrej. unfold await. simpl.
  destruct (answer h (Result X) c (outside w)) as [r s].
  exists r, (mkWorld s (logs w)). rewrite Hrej.
  destruct r; split; reflexivity.
Qed.

Section Proofs.

Context {rt : Runtime}.

(** ** The tools *)

Lemma args_readable {A : Type} (args : JsValue) (k : string) (x : JsValue)
    (first : string) (body : Prog A) :
  own_field k args = x -> x <> JUndefined ->
  destructure args first body = body.
Proof.
  intros H Hx. destruct args; try reflexivity; cbv in H; congruence.
Qed.

(** A call whose arguments pass validation and whose tool throws before
    any event gets the envelope, and nothing has happened. *)
Lemma callTool_early_throw (this : MCPServerDemo) (tool : Tool)
    (name : string) (args : JsValue) (e : JsError) :
  Map_get name (tools this) = Some tool ->
  validateArguments (inputSchema tool) args = Ok tt ->
  execute tool args = Throw e ->
  callTool this name args = Ret (error_envelope (message e)).
Proof.
  intros Hget Hval Hex. unfold callTool, callTool_try.
  rewrite Hget, Hval, Hex. reflexivity.
Qed.

(** C1. A [file_operations] call whose [path] string contains [..] or
    starts with [/] throws the traversal or the absolute-path error,
    whatever the operation; the program is that throw alone, so run on any
    host it makes no call and leaves the world as it was; and through the
    [tools/call] handler the caller gets the error envelope with that
    message, again without any event. *)
Theorem unsafe_path_rejected_before_file_access :
  forall (workspaceRoot : string) (args : JsValue) (p : string),
    own_field "path" args = JStr p ->
    (exists u v, p = (u ++ ".." ++ v)%string) \/
    (exists v, p = ("/" ++ v)%string) ->
    exists msg,
      (msg = "Path traversal (..) is not allowed" \/
       msg = "Absolute paths are not allowed") /\
      FileOperations_execute workspaceRoot args = Throw (Error_ msg) /\
      (forall (h : Host) (w : World h),
          run h (FileOperations_execute workspaceRoot args) w
            = (Err (Error_ msg), w) /\
          calls h (FileOperations_execute workspaceRoot args) w = []) /\
      (forall this : MCPServerDemo,
          Map_get "file_operations" (tools this)
            = Some (FileOperationsTool workspaceRoot) ->
          validateArguments FileOperations_schema args = Ok tt ->
          callTool this "file_operations" args = Ret (error_envelope msg)).
Proof.
  intros root args p Hpath Hbad.
  assert (Hthrow : exists msg,
             (msg = "Path traversal (..) is not allowed" \/
              msg = "Absolute paths are not allowed") /\
             FileOperations_execute root args = Throw (Error_ msg)).
  { unfold FileOperations_execute.
    rewrite (args_readable args "path" (JStr p)) by (trivial || discriminate).
    rewrite Hpath. unfold validatePath.
    destruct (includes ".." p) eqn:Hinc.
    - eexists. split; [left; reflexivity | reflexivity].
    - destruct (startsWith "/" p) eqn:Hstart.
      + eexists. split; [right; reflexivity | reflexivity].
      + exfalso. destruct Hbad as [Hdots | Hslash].
        * apply includes_iff in Hdots. congruence.
        * apply prefix_iff in Hslash. unfold startsWith in Hstart. congruence. }
  destruct Hthrow as [msg [Hmsg Hex]]. exists msg.
  split; [exact Hmsg |]. split; [exact Hex |]. split.
  - intros h w. rewrite Hex. split; reflexivity.
  - intros this Hget Hval.
    apply (callTool_early_throw this (FileOperationsTool root) _ _ (Error_ msg));
      assumption.
Qed.

(** C4. A [calculator] call with operation [divide] and [b] zero (of
    either sign) throws the division error, whatever [a] is: there is no
    success result, run on any host it fails and leaves the world as it
    was, and through the [tools/call] handler the caller gets the error
    envelope. *)
Theorem divide_by_zero_fails :
  forall (args : JsValue) (b : float),
    own_field "operation" args = JStr "divide" ->
    own_field "b" args = JNum b ->
    b = 0%float \/ b = (-0)%float ->
    Calculator_execute args = Throw (Error_ "Division by zero is not allowed") /\
    (forall (h : Host) (w : World h),
        run h (Calculator_execute args) w
          = (Err (Error_ "Division by zero is not allowed"), w)) /\
    (forall this : MCPServerDemo,
        Map_get "calculator" (tools this) = Some CalculatorTool ->
        validateArguments Calculator_schema args = Ok tt ->
        callTool this "calculator" args
          = Ret (error_envelope "Division by zero is not allowed")).
Proof.
  intros args b Hop Hb Hzero.
  assert (Hex : Calculator_execute args
                = Throw (Error_ "Division by zero is not allowed")).
  { unfold Calculator_execute.
    rewrite (args_readable args "b" (JNum b)) by (trivial || discriminate).
    rewrite Hop, Hb. destruct Hzero as [-> | ->]; reflexivity. }
  split; [exact Hex |]. split.
  - intros h w. rewrite Hex. reflexivity.
  - intros this Hget Hval.
    apply (callTool_early_throw this CalculatorTool _ _
             (Error_ "Division by zero is not allowed")); assumption.
Qed.

(** C3 (amended). For numbers [a] and [b] and an operation among [add],
    [subtract], [multiply], [divide], with [b === 0] false under [divide],
    the calculator succeeds without any event; its payload echoes the
    operation and both operands, and its result is the binary64 sum,
    difference, product or quotient of [a] and [b]. *)
Theorem calculator_result_is_binary64 :
  forall (args : JsValue) (opname : string) (op : ArithOp) (a b : float),
    own_field "operation" args = JStr opname ->
    operation_named opname = Some op ->
    own_field "a" args = JNum a ->
    own_field "b" args = JNum b ->
    (op = Divide -> PrimFloat.eqb b 0 = false) ->
    Calculator_execute args =
    Ret (mkResult true
           (Some (JObj [ ("operation", JStr opname);
                         ("operands", JObj [("a", JNum a); ("b", JNum b)]);
                         ("result", JNum (binary64 op a b)) ]))
           None).
Proof.
  intros args opname op a b Hop Hnamed Ha Hb Hdiv.
  unfold Calculator_execute.
  rewrite (args_readable args "a" (JNum a)) by (trivial || discriminate).
  rewrite Hop, Ha, Hb. unfold operation_named in Hnamed. simpl is_string.
  destruct (String.eqb opname "add");
    [injection Hnamed as <-; reflexivity |].
  destruct (String.eqb opname "subtract");
    [injection Hnamed as <-; reflexivity |].
  destruct (String.eqb opname "multiply");
    [injection Hnamed as <-; reflexivity |].
  destruct (String.eqb opname "divide"); [| discriminate].
  injection Hnamed as <-. simpl is_number. rewrite (Hdiv eq_refl). reflexivity.
Qed.

(** The required names of the registered tools are ordinary names. *)
Lemma registered_required_plain (cwd : string) (tool : Tool) (field : string) :
  In tool (toolInstances cwd) ->
  In field (declared_required (inputSchema tool)) ->
  ~ In field all_builtin_names.
Proof.
  intros Htool Hfield Hbuiltin.
  apply mem_iff in Hbuiltin.
  destruct Htool as [<- | [<- | [<- | []]]]; simpl in Hfield;
    repeat (destruct Hfield as [<- | Hfield]; [discriminate Hbuiltin |]);
    exact Hfield.
Qed.

(** ** The [tools/call] handler *)

(** C2 (amended). Take a request the handler is given: its arguments are
    absent or a record, as the request schema admits.  For a name the
    registry holds, the handler always returns a result: a validation error
    or an error thrown by the tool comes back as the error envelope with
    [isError] set, and a success comes back as the serialized tool result.
    For a name the registry does not hold, the handler throws
    [Tool "<name>" not found] and returns no result. *)
Theorem callTool_failures :
  forall (h : Host) (this : MCPServerDemo) (name : string)
         (arguments : option (list (string * JsValue))) (w : World h),
    let args := request_arguments arguments in
    match Map_get name (tools this) with
    | None =>
        run h (callTool this name args) w
        = (Err (Error_ ("Tool " ++ dquote ++ name ++ dquote ++ " not found")), w)
    | Some tool =>
        exists r w',
          run h (callTool this name args) w = (Ok r, w') /\
          match validateArguments (inputSchema tool) args with
          | Err e => r = error_envelope (message e) /\ w' = w
          | Ok _ =>
              match run h (execute tool args) w with
              | (Err e, w1) => r = error_envelope (message e) /\ w' = w1
              | (Ok result, w1) =>
                  r = mkCallResult
                        [ mkText "text"
                            (JSON_stringify (ToolResult_value result)) ]
                        None
              end
          end
    end.
Proof.
  intros h this name arguments w args. unfold callTool.
  destruct (Map_get name (tools this)) as [tool |]; [| reflexivity].
  rewrite run_try_catch. unfold callTool_try.
  rewrite run_bind, run_lift.
  destruct (validateArguments (inputSchema tool) args) as [[] | e].
  - rewrite run_bind.
    destruct (run h (execute tool args) w) as [[result | e] w1].
    + unfold logToolUsage. simpl.
      destruct (answer h float DateNow (outside w1)) as [now s].
      destruct (enabled (googleADK this)); simpl; eauto.
    + simpl. eauto.
  - simpl. eauto.
Qed.

(** ** System information *)

Lemma destructure_value {A : Type} (args : JsValue) (first : string)
    (body : Prog A) :
  args <> JUndefined -> args <> JNull -> destructure args first body = body.
Proof. intros H1 H2. destruct args; try reflexivity; congruence. Qed.

Lemma destructure_default_value {A : Type} (args : JsValue) (first : string)
    (body : Prog A) :
  args <> JUndefined -> args <> JNull ->
  destructure_default args first body = body.
Proof. intros H1 H2. destruct args; try reflexivity; congruence. Qed.

(** From a given world, every execution that is not asked for [full]
    detail queries the host in the same way and returns the same basic
    payload; the recorder's array is not touched. *)
Lemma SystemInfo_basic_run (h : Host) (w : World h) :
  exists platform architecture uptime total free used w',
    logs w' = logs w /\
    forall args : JsValue,
      args <> JUndefined -> args <> JNull ->
      is_string (own_field "detail" args) "full" = false ->
      run h (SystemInfo_execute args) w
      = (Ok (ok_result
               (basic_payload platform architecture uptime total free used)),
         w') /\
      calls h (SystemInfo_execute args) w = basic_calls.
Proof.
  destruct (answer h _ OsPlatform (outside w)) as [p s1] eqn:E1.
  destruct (answer h _ OsArch s1) as [a s2] eqn:E2.
  destruct (answer h _ OsUptime s2) as [u s3] eqn:E3.
  destruct (answer h _ OsTotalmem s3) as [t s4] eqn:E4.
  destruct (answer h _ OsFreemem s4) as [f s5] eqn:E5.
  destruct (answer h _ OsTotalmem s5) as [t' s6] eqn:E6.
  destruct (answer h _ OsFreemem s6) as [f' s7] eqn:E7.
  exists p, a, (Math_floor u),
         (Math_round (t / 1024 / 1024)%float),
         (Math_round (f / 1024 / 1024)%float),
         (Math_round ((t' - f') / 1024 / 1024)%float),
         (mkWorld s7 (logs w)).
  split; [reflexivity |].
  intros args Hu Hn Hdetail. unfold SystemInfo_execute.
  rewrite (destructure_default_value args "detail") by assumption.
  assert (Hfull : is_string match own_field "detail" args with
                            | JUndefined => JStr "basic"
                            | d => d
                            end "full" = false).
  { destruct (own_field "detail" args); try reflexivity; exact Hdetail. }
  split; simpl; rewrite E1; simpl; rewrite E2; simpl; rewrite E3; simpl;
    rewrite E4; simpl; rewrite E5; simpl; rewrite E6; simpl; rewrite E7;
    simpl; rewrite Hfull; reflexivity.
Qed.

(** C6. Reading [file:///system-info] runs the system information tool
    anew (seven host queries per read) and returns one content item with
    that URI, MIME type [application/json], and as text the serialized
    tool result whose data holds [platform], [architecture], [uptime] and
    [memory.total/free/used]: the very result the tool gives at [basic]
    detail from the same world.  Reading any other URI throws
    [Resource "<uri>" not found]. *)
Theorem readResource_system_info :
  forall (h : Host) (w : World h) (uri : string),
    if String.eqb uri "file:///system-info" then
      exists platform architecture uptime total free used w',
        run h (readResource uri) w
        = (Ok [ mkContents "file:///system-info" "application/json"
                  (JSON_stringify
                     (JObj [ ("success", JBool true);
                             ("data", basic_payload platform architecture
                                        uptime total free used) ])) ],
           w') /\
        run h (execute SystemInfoTool (JObj [("detail", JStr "basic")])) w
        = (Ok (mkResult true
                 (Some (basic_payload platform architecture
                          uptime total free used)) None),
           w') /\
        calls h (readResource uri) w = basic_calls
    else
      readResource uri
      = Throw (Error_ ("Resource " ++ dquote ++ uri ++ dquote ++ " not found")).
Proof.
  intros h w uri. unfold readResource.
  destruct (String.eqb_spec uri "file:///system-info") as [-> | Hne];
    [| reflexivity].
  destruct (SystemInfo_basic_run h w)
    as [p [a [u [t [f [us [w' [_ Hrun]]]]]]]].
  exists p, a, u, t, f, us, w'.
  destruct (Hrun (JObj [])) as [Hrun0 Hcalls0];
    try discriminate; try reflexivity.
  destruct (Hrun (JObj [("detail", JStr "basic")])) as [Hrun1 _];
    try discriminate; try reflexivity.
  split; [| split].
  - rewrite run_bind.
    change (execute SystemInfoTool (JObj [])) with (SystemInfo_execute (JObj [])).
    rewrite Hrun0. reflexivity.
  - exact Hrun1.
  - revert Hcalls0. unfold SystemInfo_execute, basic_calls. simpl.
    repeat match goal with
           | |- context [answer ?h0 ?X ?c ?s] =>
               destruct (answer h0 X c s)
           end; simpl; trivial.
Qed.

(** ** The registry *)

(** C7. The server's constructor succeeds, and from then on, after any
    sequence of requests, [tools/list] answers the same three definitions
    in registration order, [calculator], [file_operations], [system_info],
    each with its name, description and input schema; answering changes
    nothing. *)
Theorem listTools_registered :
  forall (h : Host) (cwd : string) (GOOGLE_ADK_ENABLED : option string)
         (w : World h),
    exists this w0,
      run h (MCPServerDemo_new cwd GOOGLE_ADK_ENABLED) w = (Ok this, w0) /\
      forall requests : list Request,
        let w1 := snd (serve h this requests w0) in
        run h (handle this ListTools) w1
        = (Ok (ToolsListed
                 [ mkDefinition "calculator"
                     "Perform basic mathematical calculations (add, subtract, multiply, divide)"
                     Calculator_schema;
                   mkDefinition "file_operations"
                     "Read, write, and list files in the current workspace"
                     FileOperations_schema;
                   mkDefinition "system_info"
                     "Get information about the system (platform, CPU, memory, uptime)"
                     SystemInfo_schema ]),
           w1).
Proof.
  intros h cwd flag w.
  assert (Hnew : exists adk w0,
             run h (MCPServerDemo_new cwd flag) w
             = (Ok (mkServer (registerTools cwd) adk), w0)).
  { unfold MCPServerDemo_new, GoogleADKIntegration_new. simpl.
    destruct (flag_enabled flag); simpl;
      match goal with
      | |- context [answer ?h0 ?X ?c ?s] => destruct (answer h0 X c s)
      end; simpl; eauto. }
  destruct Hnew as [adk [w0 Hnew]].
  exists (mkServer (registerTools cwd) adk), w0.
  split; [exact Hnew |]. intros requests w1. reflexivity.
Qed.

(** ** The usage recorder *)

Lemma logToolUsage_succeeds (h : Host) (this : GoogleADKIntegration)
    (toolName : string) (arguments_ : JsValue) (result : ToolResult)
    (w : World h) :
  exists now s,
    answer h _ DateNow (outside w) = (now, s) /\
    run h (logToolUsage this toolName arguments_ result) w
    = (Ok tt,
       mkWorld s (logs w ++ [mkLog toolName arguments_ result now None])).
Proof.
  unfold logToolUsage. simpl.
  destruct (answer h float DateNow (outside w)) as [now s].
  exists now, s. destruct (enabled this); auto.
Qed.

Lemma callTool_ignores_flag (h : Host) (ts : list (string * Tool))
    (b1 b2 : bool) (name : string) (args : JsValue) (w : World h) :
  run h (callTool (mkServer ts (mkADK b1)) name args) w
  = run h (callTool (mkServer ts (mkADK b2)) name args) w.
Proof.
  unfold callTool. simpl tools.
  destruct (Map_get name ts) as [tool |]; [| reflexivity].
  rewrite !run_try_catch. unfold callTool_try. rewrite !run_bind.
  destruct (run h (lift (validateArguments (inputSchema tool) args)) w)
    as [[[] | e] w1]; [| reflexivity].
  rewrite !run_bind.
  destruct (run h (execute tool args) w1) as [[result | e] w2];
    [| reflexivity].
  rewrite !run_bind. simpl googleADK.
  destruct (logToolUsage_succeeds h (mkADK b1) name args result w2)
    as [now [s [Hnow H1]]].
  destruct (logToolUsage_succeeds h (mkADK b2) name args result w2)
    as [now' [s' [Hnow' H2]]].
  rewrite H1, H2. rewrite Hnow in Hnow'. inversion Hnow'; subst. reflexivity.
Qed.

(** C9. The recording step always succeeds, appending one entry; and the
    response to a [tools/call], like the state the host is left in, is the
    same whatever the analytics variable holds ([true], anything else, or
    nothing) and whatever the recorder has collected so far. *)
Theorem recorder_never_affects_response :
  forall (h : Host) (ts : list (string * Tool)) (name : string)
         (args : JsValue) (flag1 flag2 : option string)
         (s : host_state h) (logs1 logs2 : list ToolUsageLog),
    (forall (this : GoogleADKIntegration) (toolName : string)
            (arguments_ : JsValue) (result : ToolResult) (w : World h),
        exists w',
          run h (logToolUsage this toolName arguments_ result) w = (Ok tt, w') /\
          length (logs w') = S (length (logs w))) /\
    let this1 := mkServer ts (mkADK (flag_enabled flag1)) in
    let this2 := mkServer ts (mkADK (flag_enabled flag2)) in
    fst (run h (callTool this1 name args) (mkWorld s logs1))
    = fst (run h (callTool this2 name args) (mkWorld s logs2)) /\
    outside (snd (run h (callTool this1 name args) (mkWorld s logs1)))
    = outside (snd (run h (callTool this2 name args) (mkWorld s logs2))).
Proof.
  intros h ts name args flag1 flag2 s logs1 logs2. split.
  - intros this toolName arguments_ result w.
    destruct (logToolUsage_succeeds h this toolName arguments_ result w)
      as [now [s' [_ Hrun]]].
    eexists. split; [exact Hrun |]. simpl.
    rewrite length_app. simpl. lia.
  - intros this1 this2. unfold this1, this2.
    rewrite (callTool_ignores_flag h ts (flag_enabled flag1)
               (flag_enabled flag2) name args (mkWorld s logs1)).
    apply run_ignores_logs.
Qed.

(** C10. Validation gives the same verdict with and without the schema's
    enums, so a value outside an enum is never the reason for a rejection:
    when the required-key and type checks pass, the handler goes on to the
    tool's [execute] with the arguments as they are.  In particular a
    [system_info] call whose [detail] is a string other than [full] passes
    validation and gets, without error marker, the serialized basic
    payload: the response to [detail: "basic"]. *)
Theorem enum_not_enforced :
  forall (h : Host) (cwd : string) (adk : GoogleADKIntegration)
         (detail : string) (w : World h),
    detail <> "full" ->
    (forall (schema : InputSchema) (args : JsValue),
        validateArguments schema args
        = validateArguments (without_enums schema) args) /\
    (forall (this : MCPServerDemo) (name : string) (tool : Tool)
            (args : JsValue),
        Map_get name (tools this) = Some tool ->
        validateArguments (without_enums (inputSchema tool)) args = Ok tt ->
        callTool this name args
        = try_catch
            (result <- execute tool args ;;
             logToolUsage (googleADK this) name args result ;;
             Ret (mkCallResult
                    [ mkText "text" (JSON_stringify (ToolResult_value result)) ]
                    None))
            callTool_catch) /\
    validateArguments SystemInfo_schema (JObj [("detail", JStr detail)])
    = Ok tt /\
    let this := mkServer (registerTools cwd) adk in
    exists platform architecture uptime total free used,
      let response :=
        mkCallResult
          [ mkText "text"
              (JSON_stringify
                 (JObj [ ("success", JBool true);
                         ("data", basic_payload platform architecture
                                    uptime total free used) ])) ]
          None in
      fst (run h (callTool this "system_info" (JObj [("detail", JStr detail)])) w)
      = Ok response /\
      fst (run h (callTool this "system_info" (JObj [("detail", JStr "basic")])) w)
      = Ok response.
Proof.
  intros h cwd adk detail w Hdetail.
  split; [exact validateArguments_without_enums |].
  split.
  { intros this name tool args Hget Hvalid.
    rewrite <- validateArguments_without_enums in Hvalid.
    unfold callTool, callTool_try. rewrite Hget, Hvalid. reflexivity. }
  split; [reflexivity |].
  intro this.
  destruct (SystemInfo_basic_run h w)
    as [p [a [u [t [f [us [w' [_ Hrun]]]]]]]].
  exists p, a, u, t, f, us. intro response.
  assert (Hcall : forall d : string,
             d <> "full" ->
             fst (run h (callTool this "system_info" (JObj [("detail", JStr d)])) w)
             = Ok response).
  { intros d Hd.
    assert (Hget : Map_get "system_info" (tools this) = Some SystemInfoTool)
      by reflexivity.
    unfold callTool. rewrite Hget. rewrite run_try_catch.
    unfold callTool_try. rewrite run_bind, run_lift.
    change (validateArguments (inputSchema SystemInfoTool)
              (JObj [("detail", JStr d)])) with (@Ok unit tt).
    cbv iota. rewrite run_bind.
    change (execute SystemInfoTool) with SystemInfo_execute.
    destruct (Hrun (JObj [("detail", JStr d)])) as [Hrun1 _];
      try discriminate.
    { simpl. apply String.eqb_neq. exact Hd. }
    rewrite Hrun1. rewrite run_bind.
    destruct (logToolUsage_succeeds h (googleADK this) "system_info"
                (JObj [("detail", JStr d)])
                (ok_result (basic_payload p a u t f us)) w')
      as [now [s [_ Hlog]]].
    rewrite Hlog. reflexivity. }
  split; apply Hcall; [exact Hdetail | discriminate].
Qed.

(** ** File-system faults *)

Lemma stat_each_outcome (h : Host) (safePath : string) (entries : list string) :
  forall w : World h,
    exists settled w',
      run h (stat_each safePath entries) w = (Ok settled, w') /\
      first_rejection h (stat_each safePath entries) w = first_fault settled.
Proof.
  induction entries as [| entry rest IH]; intro w; simpl.
  - exists [], w. split; reflexivity.
  - destruct (answer h _ (FsStat (join safePath entry)) (outside w))
      as [r s].
    destruct (IH (mkWorld s (logs w))) as [settled [w' [Hrun Hfirst]]].
    exists ((entry, r) :: settled), w'.
    rewrite run_bind, first_rejection_bind, Hrun, Hfirst. simpl.
    destruct r; split; try reflexivity.
    destruct (first_fault settled); reflexivity.
Qed.

Lemma Promise_all_outcome (h : Host) (settled : list (string * Result Stats))
    (w : World h) :
  first_rejection h (Promise_all settled) w = None /\
  match first_fault settled with
  | Some e => run h (Promise_all settled) w = (Err e, w)
  | None => exists l, run h (Promise_all settled) w = (Ok l, w)
  end.
Proof.
  induction settled as [| [entry [stats | e]] rest IH]; simpl.
  - split; [reflexivity | eauto].
  - destruct IH as [Hnone Hrun].
    rewrite first_rejection_bind, run_bind, Hnone.
    destruct (first_fault rest) as [e |].
    + rewrite Hrun. split; reflexivity.
    + destruct Hrun as [l Hrun]. rewrite Hrun. simpl.
      split; [reflexivity | eauto].
  - split; reflexivity.
Qed.

(** The [try] block fails with the first file-system fault it meets. *)
Lemma switch_fault (h : Host) (operation content : JsValue)
    (p safePath : string) (w : World h) (e : JsError) :
  first_rejection h (FileOperations_switch operation (JStr p) content safePath) w
  = Some e ->
  exists w',
    run h (FileOperations_switch operation (JStr p) content safePath) w
    = (Err e, w').
Proof.
  unfold FileOperations_switch.
  destruct (is_string operation "read").
  { rewrite first_rejection_bind, run_bind.
    destruct (await_outcome h (FsReadFile safePath) w (fun r => eq_refl))
      as [r [w' [Hrun Hfirst]]].
    rewrite Hrun, Hfirst. destruct r as [x | e0]; simpl.
    - discriminate.
    - intro H. inversion H; subst. eauto. }
  destruct (is_string operation "write").
  { destruct (negb (truthy content)); [discriminate |].
    rewrite first_rejection_bind, run_bind.
    destruct (await_outcome h (FsWriteFile safePath content) w
                (fun r => eq_refl)) as [r [w' [Hrun Hfirst]]].
    rewrite Hrun, Hfirst. destruct r as [x | e0]; simpl.
    - discriminate.
    - intro H. inversion H; subst. eauto. }
  destruct (is_string operation "list").
  { rewrite first_rejection_bind, run_bind.
    destruct (await_outcome h (FsReaddir safePath) w (fun r => eq_refl))
      as [r [w' [Hrun Hfirst]]].
    rewrite Hrun, Hfirst. destruct r as [entries | e0].
    - rewrite first_rejection_bind, run_bind.
      destruct (stat_each_outcome h safePath entries w')
        as [settled [w'' [Hstat Hfirst']]].
      rewrite Hstat, Hfirst'.
      rewrite first_rejection_bind, run_bind.
      destruct (Promise_all_outcome h settled w'') as [Hnone Hall].
      rewrite Hnone.
      destruct (first_fault settled) as [e1 |].
      + intro H. inversion H; subst. rewrite Hall. eauto.
      + destruct Hall as [l Hall]. rewrite Hall. simpl. discriminate.
    - intro H. inversion H; subst. eauto. }
  destruct (is_string operation "info").
  { rewrite first_rejection_bind, run_bind.
    destruct (await_outcome h (FsStat safePath) w (fun r => eq_refl))
      as [r [w' [Hrun Hfirst]]].
    rewrite Hrun, Hfirst. destruct r as [x | e0]; simpl.
    - discriminate.
    - intro H. inversion H; subst. eauto. }
  discriminate.
Qed.

(** C8. When a [file_operations] call meets a file-system fault [e], the
    call fails: with [File or directory not found: <path>], where [<path>]
    is the path string as supplied, if [e] is a not-found fault (code
    [ENOENT]); and with [e] itself, message and code unchanged,
    otherwise. *)
Theorem file_fault_surfaced :
  forall (h : Host) (workspaceRoot : string) (args : JsValue) (p : string)
         (w : World h) (e : JsError),
    own_field "path" args = JStr p ->
    first_rejection h (FileOperations_execute workspaceRoot args) w = Some e ->
    fst (run h (FileOperations_execute workspaceRoot args) w)
    = Err (if is_ENOENT e
           then Error_ ("File or directory not found: " ++ p)
           else e).
Proof.
  intros h root args p w e Hpath. unfold FileOperations_execute.
  rewrite (args_readable args "path" (JStr p)) by (trivial || discriminate).
  rewrite Hpath. unfold validatePath.
  destruct (includes ".." p); [discriminate |].
  destruct (startsWith "/" p); [discriminate |].
  cbn [lift bind].
  rewrite first_rejection_try_catch, run_try_catch.
  destruct (first_rejection h
              (FileOperations_switch (own_field "operation" args) (JStr p)
                 (own_field "content" args) (join root p)) w)
    as [e0 |] eqn:Hfirst.
  - intro H. inversion H; subst.
    destruct (switch_fault h _ _ _ _ w e Hfirst) as [w' Hrun].
    rewrite Hrun. unfold FileOperations_catch.
    destruct (is_ENOENT e); reflexivity.
  - destruct (run h _ w) as [[x | e1] w']; [discriminate |].
    unfold FileOperations_catch. destruct (is_ENOENT e1); discriminate.
Qed.

End Proofs.

(** ** The statements on the sample server *)

Lemma unsafe_path_rejected_witness :
  own_field "path" traversal_args = JStr "../etc/passwd" /\
  exists msg,
    (msg = "Path traversal (..) is not allowed" \/
     msg = "Absolute paths are not allowed") /\
    FileOperations_execute (rt := sample_runtime) "/srv" traversal_args
    = Throw (Error_ msg) /\
    calls sample_host
      (FileOperations_execute (rt := sample_runtime) "/srv" traversal_args)
      sample_world = [] /\
    callTool (rt := sample_runtime) sample_server "file_operations"
      traversal_args = Ret (error_envelope msg).
Proof.
  split; [reflexivity |].
  destruct (unsafe_path_rejected_before_file_access (rt := sample_runtime)
              "/srv" traversal_args "../etc/passwd" eq_refl
              (or_introl (ex_intro _ "" (ex_intro _ "/etc/passwd" eq_refl))))
    as [msg [Hmsg [Hthrow [Hrun Hcall]]]].
  exists msg. split; [exact Hmsg |]. split; [exact Hthrow |]. split.
  - exact (proj2 (Hrun sample_host sample_world)).
  - exact (Hcall sample_server eq_refl eq_refl).
Defined.

Lemma divide_by_zero_witness :
  Calculator_execute (rt := sample_runtime) divide_by_zero_args
  = Throw (Error_ "Division by zero is not allowed") /\
  callTool (rt := sample_runtime) sample_server "calculator"
    divide_by_zero_args
  = Ret (error_envelope "Division by zero is not allowed").
Proof.
  destruct (divide_by_zero_fails (rt := sample_runtime) divide_by_zero_args
              0%float eq_refl eq_refl (or_introl eq_refl))
    as [Hthrow [_ Hcall]].
  split; [exact Hthrow | exact (Hcall sample_server eq_refl eq_refl)].
Defined.

Lemma calculator_result_witness :
  Calculator_execute (rt := sample_runtime) multiply_args =
  Ret (mkResult true
         (Some (JObj [ ("operation", JStr "multiply");
                       ("operands", JObj [("a", JNum 6); ("b", JNum 7)]);
                       ("result", JNum 42) ]))
         None).
Proof.
  apply (calculator_result_is_binary64 (rt := sample_runtime) multiply_args
           "multiply" Times 6%float 7%float eq_refl eq_refl eq_refl eq_refl).
  intro H. discriminate H.
Defined.

(** Counterexample to C3 as stated: the calculator's sum of 2^53 and 1 is
    2^53, not the exact sum. *)
Lemma calculator_sum_not_exact :
  Calculator_execute (rt := sample_runtime) big_sum_args =
  Ret (mkResult true
         (Some (JObj [ ("operation", JStr "add");
                       ("operands", JObj [ ("a", JNum 9007199254740992);
                                           ("b", JNum 1) ]);
                       ("result", JNum 9007199254740992) ]))
         None) /\
  exact 9007199254740992 = Some (9007199254740992 # 1)%Q /\
  exact 1 = Some (1 # 1)%Q /\
  ~ ((9007199254740992 # 1) == (9007199254740992 # 1) + (1 # 1))%Q.
Proof.
  split; [vm_compute; reflexivity |].
  split; [vm_compute; reflexivity |].
  split; [vm_compute; reflexivity |].
  intro H. vm_compute in H. discriminate H.
Qed.

Lemma validation_rejects_witness :
  is_Err (validateArguments Calculator_schema mistyped_args) = true <->
  spec_rejects Calculator_schema mistyped_args.
Proof.
  apply (validation_rejects_exactly Calculator_schema mistyped_args).
  intros field Hin Hbuiltin. apply mem_iff in Hbuiltin.
  simpl in Hin.
  destruct Hin as [<- | [<- | [<- | []]]]; discriminate Hbuiltin.
Defined.

(** Counterexample to C2 as stated: a call of a tool the registry does not
    hold leaves the handler by a throw; no result, with or without error
    marker, is returned. *)
Lemma unknown_tool_not_enveloped :
  run sample_host
    (callTool (rt := sample_runtime) sample_server "no_such_tool" (JObj []))
    sample_world
  = (Err (Error_ ("Tool " ++ dquote ++ "no_such_tool" ++ dquote ++ " not found")),
     sample_world) /\
  ~ (exists (r : CallToolResult) (w' : World sample_host),
        run sample_host
          (callTool (rt := sample_runtime) sample_server "no_such_tool"
             (JObj []))
          sample_world
        = (Ok r, w')).
Proof.
  split; [reflexivity |].
  intros [r [w' H]]. discriminate H.
Qed.

Lemma file_fault_witness :
  fst (run sample_host
         (FileOperations_execute (rt := sample_runtime) "/srv" missing_file_args)
         sample_world)
  = Err (Error_ "File or directory not found: missing.txt").
Proof.
  exact (file_fault_surfaced (rt := sample_runtime) sample_host "/srv"
           missing_file_args "missing.txt" sample_world
           (mkError "ENOENT: no such file or directory" (Some "ENOENT"))
           eq_refl eq_refl).
Defined.

Lemma enum_not_enforced_witness :
  validateArguments SystemInfo_schema (JObj [("detail", JStr "verbose")])
  = Ok tt /\
  exists r,
    fst (run sample_host
           (callTool (rt := sample_runtime) sample_server "system_info"
              (JObj [("detail", JStr "verbose")]))
           sample_world) = Ok r /\
    fst (run sample_host
           (callTool (rt := sample_runtime) sample_server "system_info"
              (JObj [("detail", JStr "basic")]))
           sample_world) = Ok r /\
    isError r = None.
Proof.
  assert (Hne : "verbose" <> "full") by discriminate.
  destruct (enum_not_enforced (rt := sample_runtime) sample_host "/srv"
              (mkADK false) "verbose" sample_world Hne)
    as [_ [_ [Hvalid [p [a [u [t [f [us [H1 H2]]]]]]]]]].
  split; [exact Hvalid |].
  eexists. split; [exact H1 |]. split; [exact H2 | reflexivity].
Defined.

(** * More of the code

    Properties of the functions the statements above leave out. *)

(** ** Validation: types of validated arguments, and which error is reported *)

Lemma lookup_In {V : Type} (k : string) (m : list (string * V)) (v : V) :
  lookup k m = Some v -> In (k, v) m.
Proof.
  induction m as [| [k' v'] rest IH]; simpl; [discriminate |].
  destruct (String.eqb_spec k k') as [-> | Hne].
  - intro H. inversion H. now left.
  - intro H. right. now apply IH.
Qed.

Lemma In_lookup {V : Type} (k : string) (m : list (string * V)) :
  In k (map fst m) -> exists v, lookup k m = Some v.
Proof.
  induction m as [| [k' v'] rest IH]; simpl; [contradiction |].
  destruct (String.eqb_spec k k') as [-> | Hne].
  - intros _. eauto.
  - intros [Heq | Hin]; [congruence | now apply IH].
Qed.

Lemma validateArguments_accepts (schema : InputSchema) (args : JsValue) :
  validateArguments schema args = Ok tt ->
  is_object args /\
  check_required (declared_required schema) args = Ok tt /\
  check_types (properties schema) (supplied args) = Ok tt.
Proof.
  unfold validateArguments. fold (declared_required schema).
  destruct (negb (truthy args) || negb (String.eqb (typeof args) "object"))
    eqn:Htest; [discriminate |].
  apply object_test in Htest.
  destruct (check_required (declared_required schema) args) as [[] | e];
    simpl; [| discriminate].
  intro H. auto.
Qed.

Lemma check_required_present (fields : list string) (args : JsValue)
    (field : string) :
  check_required fields args = Ok tt -> In field fields ->
  js_in field args = true.
Proof.
  intros Hok Hin. destruct (js_in field args) eqn:E; [reflexivity |].
  assert (H : is_Err (check_required fields args) = true)
    by (apply check_required_rejects; eauto).
  rewrite Hok in H. discriminate.
Qed.

Lemma check_types_entry (props : list (string * PropertySchema))
    (entries : list (string * JsValue)) (k : string) (v : JsValue)
    (p : PropertySchema) :
  check_types props entries = Ok tt ->
  In (k, v) entries -> lookup k props = Some p -> checked_type (p_type p) ->
  typeof v = p_type p.
Proof.
  intros Hok Hin Hl Hchecked.
  destruct (string_dec (typeof v) (p_type p)) as [E | E]; [exact E |].
  assert (H : is_Err (check_types props entries) = true).
  { apply check_types_rejects. exists k, v, p.
    repeat split; try assumption. apply check_type_rejects. auto. }
  rewrite Hok in H. discriminate.
Qed.

Lemma validated_member_typed :
  forall (schema : InputSchema) (args : JsValue) (k : string)
         (p : PropertySchema),
    validateArguments schema args = Ok tt ->
    lookup k (properties schema) = Some p ->
    checked_type (p_type p) ->
    (In k (declared_required schema) /\ ~ In k all_builtin_names) \/
    In k (map fst (supplied args)) ->
    In k (map fst (supplied args)) /\ typeof (own_field k args) = p_type p.
Proof.
  intros schema args k p Hok Hl Hchecked Hk.
  apply validateArguments_accepts in Hok.
  destruct Hok as [_ [Hreq Htypes]].
  assert (Hin : In k (map fst (supplied args))).
  { destruct Hk as [[Hrequired Hplain] | Hin]; [| exact Hin].
    pose proof (check_required_present _ _ _ Hreq Hrequired) as Hjs.
    destruct (in_dec string_dec k (map fst (supplied args))) as [H | H];
      [exact H |].
    apply (js_in_supplied k args Hplain) in H. congruence. }
  split; [exact Hin |].
  destruct (In_lookup k (supplied args) Hin) as [v Hv].
  unfold own_field. unfold supplied in Hv. rewrite Hv.
  apply (check_types_entry (properties schema) (supplied args) k v p);
    try assumption.
  apply lookup_In. exact Hv.
Qed.

(** X1. Once [validateArguments] has accepted the arguments, a member the
    schema declares as number, string or boolean has that runtime type when
    the tool reads it, provided it is supplied; and a required member with
    an ordinary name is supplied. *)
Theorem validated_argument_typed :
  forall (schema : InputSchema) (args : JsValue) (k : string)
         (p : PropertySchema),
    validateArguments schema args = Ok tt ->
    lookup k (properties schema) = Some p ->
    checked_type (p_type p) ->
    (In k (declared_required schema) /\ ~ In k all_builtin_names) \/
    In k (map fst (supplied args)) ->
    In k (map fst (supplied args)) /\ typeof (own_field k args) = p_type p.
Proof. exact validated_member_typed. Qed.

Lemma check_required_first_missing (before after : list string)
    (field : string) (args : JsValue) :
  Forall (fun g => js_in g args = true) before ->
  js_in field args = false ->
  check_required (before ++ field :: after) args
  = Err (Error_ ("Missing required argument: " ++ field)).
Proof.
  intros Hbefore Hmiss. induction Hbefore as [| g rest Hg _ IH]; simpl.
  - rewrite Hmiss. reflexivity.
  - rewrite Hg. exact IH.
Qed.

(** X2. When the arguments are an object and a required name is missing,
    the error names the first missing name in the schema's order, whatever
    the types of the members that are supplied. *)
Theorem first_missing_reported :
  forall (schema : InputSchema) (args : JsValue) (before after : list string)
         (field : string),
    is_object args ->
    declared_required schema = before ++ field :: after ->
    Forall (fun g => In g (map fst (supplied args))) before ->
    ~ In field (map fst (supplied args)) ->
    ~ In field all_builtin_names ->
    validateArguments schema args
    = Err (Error_ ("Missing required argument: " ++ field)).
Proof.
  intros schema args before after field Hobj Hreq Hbefore Hmiss Hplain.
  unfold validateArguments. fold (declared_required schema).
  apply object_test in Hobj. rewrite Hobj, Hreq.
  rewrite (check_required_first_missing before after field args).
  - reflexivity.
  - eapply Forall_impl; [| exact Hbefore].
    intros g Hg. unfold js_in. apply orb_true_iff. left.
    apply mem_iff. exact Hg.
  - apply js_in_supplied; assumption.
Qed.

Lemma check_type_message (key t : string) (v : JsValue) :
  checked_type t -> typeof v <> t ->
  check_type key t v
  = Err (Error_ ("Argument " ++ dquote ++ key ++ dquote ++ " must be a " ++ t)).
Proof.
  intros [-> | [-> | ->]] Hne; unfold check_type;
    destruct (String.eqb_spec (typeof v) "number");
    destruct (String.eqb_spec (typeof v) "string");
    destruct (String.eqb_spec (typeof v) "boolean");
    simpl; congruence.
Qed.

Lemma check_required_all_present (fields : list string) (args : JsValue) :
  Forall (fun g => js_in g args = true) fields ->
  check_required fields args = Ok tt.
Proof.
  induction 1 as [| g rest Hg _ IH]; simpl; [reflexivity |].
  rewrite Hg. exact IH.
Qed.

Lemma check_types_skip (props : list (string * PropertySchema))
    (kv : string * JsValue) (rest : list (string * JsValue)) :
  entry_passes props kv ->
  check_types props (kv :: rest) = check_types props rest.
Proof.
  destruct kv as [k v]. intro Hpass. simpl.
  destruct (lookup k props) as [p |] eqn:Hl; [| reflexivity].
  destruct (check_type k (p_type p) v) as [[] | e] eqn:Hc; [reflexivity |].
  assert (H : is_Err (check_type k (p_type p) v) = true)
    by (rewrite Hc; reflexivity).
  apply check_type_rejects in H. destruct H as [Hchecked Hne].
  exfalso. apply Hne. exact (Hpass p Hl Hchecked).
Qed.

Lemma check_types_first_mistyped (props : list (string * PropertySchema))
    (before after : list (string * JsValue)) (k : string) (v : JsValue)
    (p : PropertySchema) :
  Forall (entry_passes props) before ->
  lookup k props = Some p -> checked_type (p_type p) ->
  typeof v <> p_type p ->
  check_types props (before ++ (k, v) :: after)
  = Err (Error_ ("Argument " ++ dquote ++ k ++ dquote ++ " must be a "
                 ++ p_type p)).
Proof.
  intros Hbefore Hl Hchecked Hne.
  induction Hbefore as [| kv rest Hkv _ IH].
  - cbn [app check_types].
    rewrite Hl, (check_type_message k (p_type p) v Hchecked Hne).
    reflexivity.
  - change ((kv :: rest) ++ (k, v) :: after)
      with (kv :: (rest ++ (k, v) :: after)).
    rewrite check_types_skip by exact Hkv. exact IH.
Qed.

(** X3. When the arguments are an object that supplies every required
    name, and some supplied member has a type other than the checked type
    declared for it, the error names the first such member in the order the
    arguments list them, and the type declared for it. *)
Theorem first_mistyped_reported :
  forall (schema : InputSchema) (args : JsValue)
         (before after : list (string * JsValue)) (k : string) (v : JsValue)
         (p : PropertySchema),
    is_object args ->
    Forall (fun g => In g (map fst (supplied args))) (declared_required schema) ->
    supplied args = before ++ (k, v) :: after ->
    Forall (entry_passes (properties schema)) before ->
    lookup k (properties schema) = Some p ->
    checked_type (p_type p) ->
    typeof v <> p_type p ->
    validateArguments schema args
    = Err (Error_ ("Argument " ++ dquote ++ k ++ dquote ++ " must be a "
                   ++ p_type p)).
Proof.
  intros schema args before after k v p Hobj Hreq Hsplit Hbefore Hl Hchecked
         Hne.
  unfold validateArguments. fold (declared_required schema).
  apply object_test in Hobj. rewrite Hobj.
  rewrite check_required_all_present.
  - cbn [rbind]. unfold supplied in Hsplit. rewrite Hsplit.
    apply check_types_first_mistyped; assumption.
  - eapply Forall_impl; [| exact Hreq].
    intros g Hg. unfold js_in. apply orb_true_iff. left.
    apply mem_iff. exact Hg.
Qed.

(** ** Programs: the calls they make, and the recorder's array *)

Lemma calls_bind (h : Host) {A B : Type} (p : Prog A) (f : A -> Prog B)
    (w : World h) :
  calls h (bind p f) w =
  calls h p w ++
  match run h p w with
  | (Ok a, w') => calls h (f a) w'
  | (Err _, _) => []
  end.
Proof.
  revert w. induction p as [a | e | X ev k IH]; intro w; simpl;
    try reflexivity.
  destruct (perform h ev w) as [x w'].
  destruct ev; simpl; rewrite IH; reflexivity.
Qed.

Lemma calls_try_catch (h : Host) {A : Type} (p : Prog A)
    (handler : JsError -> Prog A) (w : World h) :
  calls h (try_catch p handler) w =
  calls h p w ++
  match run h p w with
  | (Ok _, _) => []
  | (Err e, w') => calls h (handler e) w'
  end.
Proof.
  revert w. induction p as [a | e | X ev k IH]; intro w; simpl;
    try reflexivity.
  destruct (perform h ev w) as [x w'].
  destruct ev; simpl; rewrite IH; reflexivity.
Qed.

Lemma calls_await (h : Host) {X : Type} (c : HostCall (Result X))
    (w : World h) :
  calls h (await c) w = [made _ c].
Proof.
  unfold await. simpl.
  destruct (answer h (Result X) c (outside w)) as [[x | e] s]; reflexivity.
Qed.

Lemma host_only_bind {A B : Type} (p : Prog A) (f : A -> Prog B) :
  host_only p -> (forall a, host_only (f a)) -> host_only (bind p f).
Proof.
  intros Hp Hf. induction Hp as [a | e | X c k _ IH]; simpl.
  - apply Hf.
  - constructor.
  - constructor. exact IH.
Qed.

Lemma host_only_try_catch {A : Type} (p : Prog A)
    (handler : JsError -> Prog A) :
  host_only p -> (forall e, host_only (handler e)) ->
  host_only (try_catch p handler).
Proof.
  intros Hp Hh. induction Hp as [a | e | X c k _ IH]; simpl.
  - constructor.
  - apply Hh.
  - constructor. exact IH.
Qed.

Lemma host_only_call {X : Type} (c : HostCall X) : host_only (call c).
Proof. unfold call. constructor. intro x. constructor. Qed.

Lemma host_only_await {X : Type} (c : HostCall (Result X)) :
  host_only (await c).
Proof. unfold await. constructor. intros [x | e]; constructor. Qed.

Lemma host_only_lift {A : Type} (r : Result A) : host_only (lift r).
Proof. destruct r; constructor. Qed.

Lemma host_only_keeps_logs (h : Host) {A : Type} (p : Prog A) :
  host_only p -> forall w : World h, logs (snd (run h p w)) = logs w.
Proof.
  induction 1 as [a | e | X c k _ IH]; intro w; simpl; try reflexivity.
  destruct (answer h X c (outside w)) as [x s]. rewrite IH. reflexivity.
Qed.

(** ** The registry as a map *)

Lemma lookup_Map_set_eq {V : Type} (k : string) (v : V)
    (m : list (string * V)) :
  lookup k (Map_set k v m) = Some v.
Proof.
  induction m as [| [k' v'] rest IH]; simpl.
  - now rewrite String.eqb_refl.
  - destruct (String.eqb k k') eqn:E; simpl.
    + now rewrite String.eqb_refl.
    + now rewrite E.
Qed.

Lemma lookup_Map_set_ne {V : Type} (k k0 : string) (v : V)
    (m : list (string * V)) :
  k <> k0 -> lookup k0 (Map_set k v m) = lookup k0 m.
Proof.
  intro Hne. induction m as [| [k' v'] rest IH]; simpl.
  - destruct (String.eqb_spec k0 k); [congruence | reflexivity].
  - destruct (String.eqb_spec k k') as [-> | Hk]; simpl.
    + destruct (String.eqb_spec k0 k'); [congruence | reflexivity].
    + destruct (String.eqb k0 k'); [reflexivity | exact IH].
Qed.

Lemma Map_set_keys {V : Type} (k : string) (v : V) (m : list (string * V)) :
  map fst (Map_set k v m)
  = if mem k (map fst m) then map fst m else map fst m ++ [k].
Proof.
  unfold mem. induction m as [| [k' v'] rest IH]; simpl; [reflexivity |].
  destruct (String.eqb_spec k k') as [-> | Hk]; simpl; [reflexivity |].
  rewrite IH. destruct (existsb (String.eqb k) (map fst rest)); reflexivity.
Qed.

Lemma Map_set_NoDup {V : Type} (k : string) (v : V) (m : list (string * V)) :
  NoDup (map fst m) -> NoDup (map fst (Map_set k v m)).
Proof.
  intro Hm. rewrite Map_set_keys.
  destruct (mem k (map fst m)) eqn:E; [exact Hm |].
  apply NoDup_app; [exact Hm | constructor; [intros [] | constructor] |].
  intros x Hx [<- | []]. apply mem_iff in Hx. congruence.
Qed.

Lemma Map_set_named (k : string) (t : Tool) (m : list (string * Tool)) :
  k = name t ->
  Forall (fun kt => fst kt = name (snd kt)) m ->
  Forall (fun kt => fst kt = name (snd kt)) (Map_set k t m).
Proof.
  intros Hk Hm. induction Hm as [| [k' t'] rest Hkt Hrest IH]; simpl.
  - constructor; [exact Hk | constructor].
  - destruct (String.eqb k k'); constructor; simpl; auto.
Qed.

Lemma find_last_app {A : Type} (f : A -> bool) (l1 l2 : list A) :
  find f (l1 ++ l2)
  = match find f l1 with Some x => Some x | None => find f l2 end.
Proof.
  induction l1 as [| a l1 IH]; simpl; [reflexivity |].
  destruct (f a); [reflexivity | exact IH].
Qed.

Lemma register_all_lookup (l : list Tool) :
  forall (m : list (string * Tool)) (n : string),
    Map_get n (register_all l m)
    = match find (fun t => String.eqb n (name t)) (rev l) with
      | Some t => Some t
      | None => Map_get n m
      end.
Proof.
  unfold Map_get, register_all.
  induction l as [| t l IH]; intros m n; simpl; [reflexivity |].
  rewrite IH, find_last_app. simpl.
  destruct (find (fun t0 => String.eqb n (name t0)) (rev l)); [reflexivity |].
  destruct (String.eqb_spec n (name t)) as [-> | Hne].
  - apply lookup_Map_set_eq.
  - apply lookup_Map_set_ne. congruence.
Qed.

Lemma register_all_invariant (l : list Tool) :
  forall m : list (string * Tool),
    NoDup (map fst m) ->
    Forall (fun kt => fst kt = name (snd kt)) m ->
    NoDup (map fst (register_all l m)) /\
    Forall (fun kt => fst kt = name (snd kt)) (register_all l m).
Proof.
  unfold register_all.
  induction l as [| t l IH]; intros m Hnd Hnamed; simpl; [auto |].
  apply IH; [apply Map_set_NoDup | apply Map_set_named]; auto.
Qed.

(** X4. Whatever array of tool instances the registration loop is given:
    a name resolves to the last instance registered under it (a later
    registration silently replaces an earlier one), a name no instance
    bears does not resolve, and the map holds each name once. *)
Theorem registration_last_wins :
  forall (toolInstances : list Tool) (n : string),
    Map_get n (register_all toolInstances [])
    = find (fun tool => String.eqb n (name tool)) (rev toolInstances) /\
    (Map_get n (register_all toolInstances []) = None <->
     ~ In n (map name toolInstances)) /\
    NoDup (map fst (register_all toolInstances [])).
Proof.
  intros l n.
  assert (Hget : Map_get n (register_all l [])
                 = find (fun tool => String.eqb n (name tool)) (rev l)).
  { rewrite register_all_lookup.
    destruct (find (fun t => String.eqb n (name t)) (rev l)); reflexivity. }
  split; [exact Hget |]. split.
  - rewrite Hget. split.
    + intros Hnone Hin. apply in_map_iff in Hin. destruct Hin as [t [<- Hin]].
      apply in_rev in Hin.
      pose proof (find_none _ _ Hnone t Hin) as Hfalse. simpl in Hfalse.
      rewrite String.eqb_refl in Hfalse. discriminate.
    + intro Hnot.
      destruct (find (fun tool => String.eqb n (name tool)) (rev l))
        as [t |] eqn:E; [| reflexivity].
      apply find_some in E. destruct E as [Hin Heq].
      apply String.eqb_eq in Heq. exfalso. apply Hnot.
      apply in_map_iff. exists t. split; [congruence |].
      apply in_rev. exact Hin.
  - apply (register_all_invariant l []); constructor.
Qed.

Section More.

Context {rt : Runtime}.

(** ** The registry and the handlers *)

Lemma listed_names (m : list (string * Tool)) :
  Forall (fun kt => fst kt = name (snd kt)) m ->
  map d_name (map getDefinition (Map_values m)) = map fst m.
Proof.
  unfold Map_values.
  induction 1 as [| [k t] rest Hk _ IH]; simpl; [reflexivity |].
  simpl in Hk. rewrite IH, Hk. reflexivity.
Qed.

(** X5. For a server whose map was filled by the registration loop, as
    [registerTools] fills it, the names [tools/list] advertises are exactly
    the names [tools/call] resolves; the tool a name resolves to bears that
    name and its definition is among those listed; and a call under any
    other name throws the not-found error. *)
Theorem advertised_tools_are_the_callable :
  forall (instances : list Tool) (adk : GoogleADKIntegration) (cwd : string),
    let this := mkServer (register_all instances []) adk in
    registerTools cwd = register_all (toolInstances cwd) [] /\
    exists defs,
      listTools this = Ret defs /\
      (forall n, In n (map d_name defs) <->
                 exists tool, Map_get n (tools this) = Some tool) /\
      (forall n tool, Map_get n (tools this) = Some tool ->
                      name tool = n /\ In (getDefinition tool) defs) /\
      (forall n args, ~ In n (map d_name defs) ->
                      callTool this n args
                      = Throw (Error_ ("Tool " ++ dquote ++ n ++ dquote
                                       ++ " not found"))).
Proof.
  intros instances adk cwd this. split; [reflexivity |].
  destruct (register_all_invariant instances [] (NoDup_nil _) (Forall_nil _))
    as [_ Hnamed].
  exists (map getDefinition (Map_values (tools this))).
  split; [reflexivity |].
  assert (Hnames : map d_name (map getDefinition (Map_values (tools this)))
                   = map fst (tools this)).
  { apply listed_names. exact Hnamed. }
  assert (Hiff : forall n, In n (map fst (tools this)) <->
                           exists tool, Map_get n (tools this) = Some tool).
  { intro n. split.
    - apply In_lookup.
    - intros [tool Htool]. apply lookup_In in Htool.
      apply in_map_iff. exists (n, tool). auto. }
  split; [| split].
  - intro n. rewrite Hnames. apply Hiff.
  - intros n tool Htool. apply lookup_In in Htool. split.
    + simpl tools in Htool. rewrite Forall_forall in Hnamed.
      symmetry. exact (Hnamed (n, tool) Htool).
    + unfold Map_values. rewrite map_map. apply in_map_iff.
      exists (n, tool). auto.
  - intros n args Hnot. unfold callTool.
    destruct (Map_get n (tools this)) as [tool |] eqn:E; [| reflexivity].
    exfalso. apply Hnot. rewrite Hnames. apply Hiff. eauto.
Qed.

Lemma non_object_rejected (schema : InputSchema) (args : JsValue) :
  ~ is_object args ->
  validateArguments schema args = Err (Error_ "Arguments must be an object").
Proof.
  intro Hno. unfold validateArguments.
  destruct (negb (truthy args) || negb (String.eqb (typeof args) "object"))
    eqn:Htest; [reflexivity |].
  apply object_test in Htest. contradiction.
Qed.

Lemma check_required_not_object_error (fields : list string) (args : JsValue) :
  check_required fields args <> Err (Error_ "Arguments must be an object").
Proof.
  induction fields as [| field rest IH]; simpl; [discriminate |].
  destruct (js_in field args); simpl; [exact IH | discriminate].
Qed.

Lemma check_type_not_object_error (key t : string) (v : JsValue) :
  check_type key t v <> Err (Error_ "Arguments must be an object").
Proof.
  unfold check_type.
  repeat match goal with
         | |- (if ?b then _ else _) <> _ => destruct b
         end; simpl; discriminate.
Qed.

Lemma check_types_not_object_error (props : list (string * PropertySchema))
    (entries : list (string * JsValue)) :
  check_types props entries <> Err (Error_ "Arguments must be an object").
Proof.
  induction entries as [| [k v] rest IH]; simpl; [discriminate |].
  destruct (lookup k props) as [p |]; [| exact IH].
  destruct (check_type k (p_type p) v) as [[] | e] eqn:Hc; simpl;
    [exact IH |].
  rewrite <- Hc. apply check_type_not_object_error.
Qed.

Lemma record_not_object_error (schema : InputSchema)
    (props : list (string * JsValue)) :
  validateArguments schema (JObj props)
  <> Err (Error_ "Arguments must be an object").
Proof.
  unfold validateArguments. simpl.
  destruct (check_required _ (JObj props)) as [[] | e] eqn:Hreq; simpl.
  - apply check_types_not_object_error.
  - rewrite <- Hreq. apply check_required_not_object_error.
Qed.

(** X6. A [tools/call] without [arguments] is answered with the envelope
    [Error: Arguments must be an object], for every registered tool, also
    one that requires no argument; the tool is not run and no event
    happens.  Arguments that are a record, the empty one included, never
    fail validation with that message. *)
Theorem absent_arguments_rejected :
  forall (this : MCPServerDemo) (n : string) (tool : Tool),
    Map_get n (tools this) = Some tool ->
    callTool this n (request_arguments None)
    = Ret (error_envelope "Arguments must be an object") /\
    forall props : list (string * JsValue),
      validateArguments (inputSchema tool) (request_arguments (Some props))
      <> Err (Error_ "Arguments must be an object").
Proof.
  intros this n tool Hget. split.
  - unfold callTool, callTool_try. rewrite Hget.
    rewrite (non_object_rejected _ (request_arguments None));
      [reflexivity | intros []].
  - intro props. apply record_not_object_error.
Qed.

(** ** The calculator *)

Lemma typeof_number (v : JsValue) : typeof v = "number" -> exists n, v = JNum n.
Proof. destruct v; simpl; try discriminate. eauto. Qed.

Lemma typeof_string (v : JsValue) : typeof v = "string" -> exists s, v = JStr s.
Proof. destruct v; simpl; try discriminate. eauto. Qed.

Lemma is_string_eq (v : JsValue) (s : string) :
  is_string v s = true -> v = JStr s.
Proof.
  destruct v; simpl; try discriminate.
  intro H. apply String.eqb_eq in H. now subst.
Qed.

(** X7. A calculator call whose [operation] is not an object and none of
    [add], [subtract], [multiply], [divide] (another string, a number, a
    boolean, [null], or a missing member) throws
    [Unknown operation: <operation>], whatever the operands are, without
    any event. *)
Theorem calculator_unknown_operation :
  forall args : JsValue,
    args <> JUndefined -> args <> JNull ->
    ~ is_object (own_field "operation" args) ->
    calculator_operation (own_field "operation" args) = None ->
    Calculator_execute args
    = Throw (Error_ ("Unknown operation: "
                     ++ ToString (own_field "operation" args))).
Proof.
  intros args Hu Hn _ Hop. unfold Calculator_execute.
  rewrite (destructure_value args "operation") by assumption.
  destruct (own_field "operation" args) as [| | b | x | s | l | o | d];
    try reflexivity.
  simpl in Hop. unfold operation_named in Hop. simpl is_string.
  destruct (String.eqb s "add"); [discriminate |].
  destruct (String.eqb s "subtract"); [discriminate |].
  destruct (String.eqb s "multiply"); [discriminate |].
  destruct (String.eqb s "divide"); [discriminate |].
  reflexivity.
Qed.

(** X8. Arguments the calculator's schema accepts carry a string
    [operation] and numbers [a] and [b], and what the calculator does with
    them is settled by these three alone: the success payload with the
    binary64 result, the division error when [b === 0] under [divide], or
    the unknown-operation error.  The runtime's coercions never come into
    play. *)
Theorem validated_calculator_call :
  forall args : JsValue,
    validateArguments Calculator_schema args = Ok tt ->
    exists (s : string) (a b : float),
      own_field "operation" args = JStr s /\
      own_field "a" args = JNum a /\
      own_field "b" args = JNum b /\
      Calculator_execute args = calculator_outcome s a b.
Proof.
  intros args Hok.
  assert (Hplain : forall k, In k ["operation"; "a"; "b"] ->
                             ~ In k all_builtin_names).
  { intros k Hk Hb. apply mem_iff in Hb.
    destruct Hk as [<- | [<- | [<- | []]]]; discriminate Hb. }
  destruct (validated_member_typed Calculator_schema args "operation"
              (mkProp "string" (Some ["add"; "subtract"; "multiply"; "divide"])
                      "The mathematical operation to perform")
              Hok eq_refl (or_intror (or_introl eq_refl)))
    as [_ Hop].
  { left. split; [simpl; auto | apply Hplain; simpl; auto]. }
  destruct (validated_member_typed Calculator_schema args "a"
              (mkProp "number" None "First number")
              Hok eq_refl (or_introl eq_refl)) as [_ Ha].
  { left. split; [simpl; auto | apply Hplain; simpl; auto]. }
  destruct (validated_member_typed Calculator_schema args "b"
              (mkProp "number" None "Second number")
              Hok eq_refl (or_introl eq_refl)) as [_ Hb].
  { left. split; [simpl; auto | apply Hplain; simpl; auto]. }
  apply typeof_string in Hop. destruct Hop as [s Hs].
  apply typeof_number in Ha. destruct Ha as [a Ha].
  apply typeof_number in Hb. destruct Hb as [b Hb].
  exists s, a, b. repeat split; try assumption.
  unfold Calculator_execute, calculator_outcome.
  rewrite (args_readable args "a" (JNum a)) by (trivial || discriminate).
  rewrite Hs, Ha, Hb. unfold operation_named. simpl is_string.
  destruct (String.eqb s "add"); [reflexivity |].
  destruct (String.eqb s "subtract"); [reflexivity |].
  destruct (String.eqb s "multiply"); [reflexivity |].
  destruct (String.eqb s "divide"); reflexivity.
Qed.

(** ** The file tool *)

(** X9. [validatePath] accepts a path string exactly when it neither
    contains [..] nor starts with [/], and then resolves it to
    [join(workspaceRoot, path)]; nothing else is examined, so a string such
    as one starting with a backslash or a drive letter is accepted, and one
    with two dots inside a file name is rejected. *)
Theorem validatePath_accepts_exactly :
  forall (workspaceRoot p : string),
    (validatePath workspaceRoot (JStr p) = Ok (join workspaceRoot p) <->
     ~ (exists u v, p = (u ++ ".." ++ v)%string) /\
     ~ (exists v, p = ("/" ++ v)%string)) /\
    (forall q, validatePath workspaceRoot (JStr p) = Ok q ->
               q = join workspaceRoot p).
Proof.
  intros root p. unfold validatePath, startsWith.
  destruct (includes ".." p) eqn:Hinc.
  - apply includes_iff in Hinc. split.
    + split; [discriminate | intros [H _]; contradiction].
    + discriminate.
  - destruct (String.prefix "/" p) eqn:Hpre.
    + apply prefix_iff in Hpre. split.
      * split; [discriminate | intros [_ H]; contradiction].
      * discriminate.
    + split.
      * split; [intros _ | reflexivity]. split.
        -- intro H. apply includes_iff in H. congruence.
        -- intro H. apply prefix_iff in H. congruence.
      * intros q H. inversion H. reflexivity.
Qed.

Lemma unsafe_path_is_thrown (workspaceRoot : string) (args : JsValue)
    (p : string) :
  own_field "path" args = JStr p ->
  includes ".." p = true \/ startsWith "/" p = true ->
  exists e, FileOperations_execute workspaceRoot args = Throw e.
Proof.
  intros Hpath Hbad. unfold FileOperations_execute.
  rewrite (args_readable args "path" (JStr p)) by (trivial || discriminate).
  rewrite Hpath. unfold validatePath.
  destruct (includes ".." p); [eexists; reflexivity |].
  destruct (startsWith "/" p); [eexists; reflexivity |].
  destruct Hbad; discriminate.
Qed.

Lemma safe_path_execute (workspaceRoot : string) (args : JsValue) (p : string) :
  own_field "path" args = JStr p ->
  includes ".." p = false -> startsWith "/" p = false ->
  FileOperations_execute workspaceRoot args
  = try_catch (FileOperations_switch (own_field "operation" args) (JStr p)
                 (own_field "content" args) (join workspaceRoot p))
              (FileOperations_catch (JStr p)).
Proof.
  intros Hpath Hinc Hstart. unfold FileOperations_execute.
  rewrite (args_readable args "path" (JStr p)) by (trivial || discriminate).
  rewrite Hpath. unfold validatePath. rewrite Hinc, Hstart. reflexivity.
Qed.

Lemma catch_makes_no_call (h : Host) (path : JsValue) (e : JsError)
    (w : World h) :
  calls h (FileOperations_catch path e) w = [].
Proof. unfold FileOperations_catch. destruct (is_ENOENT e); reflexivity. Qed.

Lemma run_await (h : Host) {X : Type} (c : HostCall (Result X)) (w : World h) :
  run h (await c) w
  = (fst (answer h _ c (outside w)),
     mkWorld (snd (answer h _ c (outside w))) (logs w)).
Proof.
  unfold await. simpl.
  destruct (answer h (Result X) c (outside w)) as [[x | e] s]; reflexivity.
Qed.

Lemma stat_each_calls (h : Host) (safePath : string) (entries : list string) :
  forall w : World h,
    calls h (stat_each safePath entries) w
    = map (fun entry => made _ (FsStat (join safePath entry))) entries.
Proof.
  induction entries as [| entry rest IH]; intro w; simpl; [reflexivity |].
  destruct (answer h _ (FsStat (join safePath entry)) (outside w)) as [r s].
  f_equal. rewrite calls_bind.
  destruct (run h (stat_each safePath rest) (mkWorld s (logs w)))
    as [[settled | e] w'] eqn:Hrun; simpl; rewrite app_nil_r; apply IH.
Qed.

Lemma Promise_all_calls (h : Host) (settled : list (string * Result Stats))
    (w : World h) :
  calls h (Promise_all settled) w = [].
Proof.
  induction settled as [| [entry [stats | e]] rest IH]; simpl;
    try reflexivity.
  rewrite calls_bind, IH.
  destruct (run h (Promise_all rest) w) as [[l | e] w']; reflexivity.
Qed.

Lemma switch_calls (h : Host) (operation content : JsValue)
    (p safePath : string) (w : World h) :
  calls h (FileOperations_switch operation (JStr p) content safePath) w
  = file_calls h operation content safePath w.
Proof.
  unfold FileOperations_switch, file_calls.
  destruct (is_string operation "read").
  { rewrite calls_bind, calls_await.
    destruct (run h (await (FsReadFile safePath)) w) as [[x | e] w'];
      reflexivity. }
  destruct (is_string operation "write").
  { destruct (truthy content); [| reflexivity]. cbn [negb].
    rewrite calls_bind, calls_await.
    destruct (run h (await (FsWriteFile safePath content)) w) as [[x | e] w'];
      reflexivity. }
  destruct (is_string operation "list").
  { rewrite calls_bind, calls_await, run_await.
    destruct (fst (answer h _ (FsReaddir safePath) (outside w)))
      as [names | e]; [| reflexivity].
    cbn [app]. f_equal. rewrite calls_bind, stat_each_calls.
    match goal with
    | |- context [run h (stat_each safePath names) ?w1] =>
        destruct (run h (stat_each safePath names) w1) as [[settled | e] w2]
    end; [| apply app_nil_r].
    rewrite calls_bind, Promise_all_calls.
    destruct (run h (Promise_all settled) w2) as [[l | e] w3];
      apply app_nil_r. }
  destruct (is_string operation "info").
  { rewrite calls_bind, calls_await.
    destruct (run h (await (FsStat safePath)) w) as [[x | e] w'];
      reflexivity. }
  reflexivity.
Qed.

Lemma file_calls_write_nothing (h : Host) (operation content : JsValue)
    (safePath : string) (w : World h) :
  is_string operation "write" = false ->
  forallb (fun m => negb (is_write m))
          (file_calls h operation content safePath w) = true.
Proof.
  intro Hnot. unfold file_calls. rewrite Hnot.
  destruct (is_string operation "read"); [reflexivity |].
  destruct (is_string operation "list").
  { destruct (fst (answer h _ (FsReaddir safePath) (outside w)))
      as [names | e]; [| reflexivity].
    simpl. induction names as [| name rest IH]; [reflexivity | exact IH]. }
  destruct (is_string operation "info"); reflexivity.
Qed.

(** X10. Whatever the host answers, the calls of the file tool are fixed
    by the operation, the resolved path and, for [list], the names the
    host has just listed: a refused path makes no call; on an accepted path
    [read] reads that file once, [write] writes the supplied content to it
    once, [list] reads that directory and then stats exactly the listed
    names under it, in the listed order, [info] stats the path once, and
    an unrecognized operation makes no call.  In particular no operation
    but [write] writes, and the tool never queries the operating system or
    the clock. *)
Theorem file_calls_confined :
  forall (h : Host) (workspaceRoot : string) (args : JsValue) (p : string)
         (w : World h),
    own_field "path" args = JStr p ->
    calls h (FileOperations_execute workspaceRoot args) w
    = (if includes ".." p || startsWith "/" p then []
       else file_calls h (own_field "operation" args)
              (own_field "content" args) (join workspaceRoot p) w) /\
    (is_string (own_field "operation" args) "write" = false ->
     forall q d,
       ~ In (made _ (FsWriteFile q d))
            (calls h (FileOperations_execute workspaceRoot args) w)).
Proof.
  intros h root args p w Hpath.
  assert (Hcalls : calls h (FileOperations_execute root args) w
                   = (if includes ".." p || startsWith "/" p then []
                      else file_calls h (own_field "operation" args)
                             (own_field "content" args) (join root p) w)).
  { destruct (includes ".." p) eqn:Hinc;
      [| destruct (startsWith "/" p) eqn:Hstart].
    - destruct (unsafe_path_is_thrown root args p Hpath) as [e He].
      + left. exact Hinc.
      + rewrite He. reflexivity.
    - destruct (unsafe_path_is_thrown root args p Hpath) as [e He].
      + right. exact Hstart.
      + rewrite He. reflexivity.
    - rewrite (safe_path_execute root args p Hpath Hinc Hstart).
      rewrite calls_try_catch, switch_calls. cbn [orb].
      destruct (run h _ w) as [[x | e] w']; [apply app_nil_r |].
      rewrite catch_makes_no_call. apply app_nil_r. }
  split; [exact Hcalls |].
  intros Hnot q d Hin. rewrite Hcalls in Hin.
  destruct (includes ".." p || startsWith "/" p); [contradiction |].
  assert (Hall := file_calls_write_nothing h (own_field "operation" args)
                    (own_field "content" args) (join root p) w Hnot).
  rewrite forallb_forall in Hall. apply Hall in Hin. discriminate Hin.
Qed.

(** X11. A [write] on an accepted path whose [content] is missing or
    falsy, the empty string included (so no empty file can be written),
    throws [Content is required for write operation]; the error passes the
    catch block unchanged and the host is not called. *)
Theorem write_requires_content :
  forall (workspaceRoot : string) (args : JsValue) (p : string),
    own_field "path" args = JStr p ->
    includes ".." p = false -> startsWith "/" p = false ->
    is_string (own_field "operation" args) "write" = true ->
    truthy (own_field "content" args) = false ->
    FileOperations_execute workspaceRoot args
    = Throw (Error_ "Content is required for write operation").
Proof.
  intros root args p Hpath Hinc Hstart Hop Hcontent.
  rewrite (safe_path_execute root args p Hpath Hinc Hstart).
  apply is_string_eq in Hop. rewrite Hop.
  unfold FileOperations_switch. simpl is_string. cbv iota.
  rewrite Hcontent. reflexivity.
Qed.

(** X12. On an accepted path, an [operation] that is not an object and
    none of [read], [write], [list], [info] (another string, a number, a
    boolean, [null], or a missing member) throws
    [Unknown operation: <operation>] without calling the host. *)
Theorem file_unknown_operation :
  forall (workspaceRoot : string) (args : JsValue) (p : string),
    own_field "path" args = JStr p ->
    includes ".." p = false -> startsWith "/" p = false ->
    ~ is_object (own_field "operation" args) ->
    known_file_operation (own_field "operation" args) = false ->
    FileOperations_execute workspaceRoot args
    = Throw (Error_ ("Unknown operation: "
                     ++ ToString (own_field "operation" args))).
Proof.
  intros root args p Hpath Hinc Hstart _ Hop.
  rewrite (safe_path_execute root args p Hpath Hinc Hstart).
  unfold known_file_operation in Hop.
  apply orb_false_iff in Hop. destruct Hop as [Hop Hinfo].
  apply orb_false_iff in Hop. destruct Hop as [Hop Hlist].
  apply orb_false_iff in Hop. destruct Hop as [Hread Hwrite].
  unfold FileOperations_switch. rewrite Hread, Hwrite, Hlist, Hinfo.
  reflexivity.
Qed.

(** X13. A [read] on an accepted path makes one call, reading the resolved
    path; when the host answers with the file's text, the result carries
    the path as supplied, that text, and as size the length of the text in
    UTF-16 code units (not its length in bytes). *)
Theorem read_returns_content :
  forall (h : Host) (workspaceRoot : string) (args : JsValue) (p : string)
         (w : World h) (text : string) (s : host_state h),
    own_field "path" args = JStr p ->
    includes ".." p = false -> startsWith "/" p = false ->
    is_string (own_field "operation" args) "read" = true ->
    answer h _ (FsReadFile (join workspaceRoot p)) (outside w) = (Ok text, s) ->
    run h (FileOperations_execute workspaceRoot args) w
    = (Ok (mkResult true
             (Some (JObj [ ("path", JStr p);
                           ("content", JStr text);
                           ("size", JNum (float_of_nat (utf16_length text))) ]))
             None),
       mkWorld s (logs w)) /\
    calls h (FileOperations_execute workspaceRoot args) w
    = [ made _ (FsReadFile (join workspaceRoot p)) ].
Proof.
  intros h root args p w text s Hpath Hinc Hstart Hop Hanswer.
  rewrite (safe_path_execute root args p Hpath Hinc Hstart).
  unfold FileOperations_switch. rewrite Hop. simpl.
  rewrite Hanswer. split; reflexivity.
Qed.

Lemma stat_each_names (h : Host) (safePath : string) (entries : list string) :
  forall (w w' : World h) (settled : list (string * Result Stats)),
    run h (stat_each safePath entries) w = (Ok settled, w') ->
    map fst settled = entries.
Proof.
  induction entries as [| entry rest IH]; intros w w' settled; simpl.
  - intro H. inversion H. reflexivity.
  - destruct (answer h _ (FsStat (join safePath entry)) (outside w)) as [r s].
    simpl. rewrite run_bind.
    destruct (run h (stat_each safePath rest) (mkWorld s (logs w)))
      as [[rs | e] w1] eqn:Hrest; simpl; [| discriminate].
    intro H. inversion H; subst. simpl. f_equal. exact (IH _ _ _ Hrest).
Qed.

(** What [list] reports for an entry. *)
Lemma Promise_all_entries (h : Host) (settled : list (string * Result Stats)) :
  forall (w w' : World h) (fileList : list JsValue),
    run h (Promise_all settled) w = (Ok fileList, w') ->
    map (own_field "name") fileList = map JStr (map fst settled) /\
    Forall (fun entry =>
              own_field "type" entry = JStr "file" \/
              own_field "type" entry = JStr "directory") fileList.
Proof.
  induction settled as [| [entry [stats | e]] rest IH];
    intros w w' fileList; simpl.
  - intro H. inversion H. split; [reflexivity | constructor].
  - rewrite run_bind.
    destruct (run h (Promise_all rest) w) as [[more | e] w1] eqn:Hrest;
      simpl; [| discriminate].
    intro H. inversion H; subst.
    destruct (IH _ _ _ Hrest) as [Hnames Htypes]. split.
    + simpl. f_equal. exact Hnames.
    + constructor; [| exact Htypes].
      unfold kind_of. destruct (isDirectory stats); [right | left]; reflexivity.
  - discriminate.
Qed.

(** X14. When a [list] on an accepted path succeeds, the directory the
    host listed is the resolved path, and the result has one entry per
    name the host listed, in the same order and under the same names, each
    classified as a file or a directory. *)
Theorem list_reports_each_entry :
  forall (h : Host) (workspaceRoot : string) (args : JsValue) (p : string)
         (w w' : World h) (result : ToolResult),
    own_field "path" args = JStr p ->
    includes ".." p = false -> startsWith "/" p = false ->
    is_string (own_field "operation" args) "list" = true ->
    run h (FileOperations_execute workspaceRoot args) w = (Ok result, w') ->
    exists (names : list string) (s : host_state h) (fileList : list JsValue),
      answer h _ (FsReaddir (join workspaceRoot p)) (outside w) = (Ok names, s) /\
      result = mkResult true
                 (Some (JObj [ ("path", JStr p); ("entries", JArr fileList) ]))
                 None /\
      map (own_field "name") fileList = map JStr names /\
      Forall (fun entry =>
                own_field "type" entry = JStr "file" \/
                own_field "type" entry = JStr "directory") fileList.
Proof.
  intros h root args p w w' result Hpath Hinc Hstart Hop.
  rewrite (safe_path_execute root args p Hpath Hinc Hstart).
  apply is_string_eq in Hop. rewrite Hop.
  unfold FileOperations_switch. simpl is_string. cbv iota.
  rewrite run_try_catch, run_bind, run_await.
  destruct (answer h _ (FsReaddir (join root p)) (outside w))
    as [[names | e] s] eqn:Hanswer; simpl.
  - rewrite run_bind.
    destruct (run h (stat_each (join root p) names) (mkWorld s (logs w)))
      as [[settled | e] w1] eqn:Hstat; simpl.
    + rewrite run_bind.
      destruct (run h (Promise_all settled) w1) as [[fileList | e] w2]
        eqn:Hall; simpl.
      * intro H. inversion H; subst.
        destruct (Promise_all_entries h settled _ _ _ Hall) as [Hn Ht].
        exists names, s, fileList. repeat split; try assumption.
        rewrite Hn, (stat_each_names h _ _ _ _ _ Hstat). reflexivity.
      * unfold FileOperations_catch. destruct (is_ENOENT e); discriminate.
    + unfold FileOperations_catch. destruct (is_ENOENT e); discriminate.
  - unfold FileOperations_catch. destruct (is_ENOENT e); discriminate.
Qed.

(** ** System information *)

Lemma SystemInfo_full (h : Host) (args : JsValue) (w : World h) :
  args <> JUndefined -> args <> JNull ->
  is_string (own_field "detail" args) "full" = true ->
  exists platform architecture uptime total free used
         (cpus1 cpus2 cpus3 : list CpuInfo) w',
    run h (SystemInfo_execute args) w
    = (Ok (mkResult true
             (Some (JObj [ ("platform", JStr platform);
                           ("architecture", JStr architecture);
                           ("uptime", JNum uptime);
                           ("memory", JObj [ ("total", JNum total);
                                             ("free", JNum free);
                                             ("used", JNum used) ]);
                           ("cpus",
                            JObj [ ("count", JNum (float_of_nat (List.length cpus1)));
                                   ("model", first_model cpus2);
                                   ("speed", first_speed cpus3) ]) ]))
             None),
       w') /\
    logs w' = logs w /\
    calls h (SystemInfo_execute args) w
    = basic_calls ++ [ made _ OsCpus; made _ OsCpus; made _ OsCpus ].
Proof.
  intros Hu Hn Hfull.
  destruct (answer h _ OsPlatform (outside w)) as [p s1] eqn:E1.
  destruct (answer h _ OsArch s1) as [a s2] eqn:E2.
  destruct (answer h _ OsUptime s2) as [u s3] eqn:E3.
  destruct (answer h _ OsTotalmem s3) as [t s4] eqn:E4.
  destruct (answer h _ OsFreemem s4) as [f s5] eqn:E5.
  destruct (answer h _ OsTotalmem s5) as [t' s6] eqn:E6.
  destruct (answer h _ OsFreemem s6) as [f' s7] eqn:E7.
  destruct (answer h _ OsCpus s7) as [c1 s8] eqn:E8.
  destruct (answer h _ OsCpus s8) as [c2 s9] eqn:E9.
  destruct (answer h _ OsCpus s9) as [c3 s10] eqn:E10.
  exists p, a, (Math_floor u),
         (Math_round (t / 1024 / 1024)%float),
         (Math_round (f / 1024 / 1024)%float),
         (Math_round ((t' - f') / 1024 / 1024)%float),
         c1, c2, c3, (mkWorld s10 (logs w)).
  apply is_string_eq in Hfull. unfold SystemInfo_execute.
  rewrite (destructure_default_value args "detail") by assumption.
  rewrite Hfull.
  repeat split; simpl; rewrite E1; simpl; rewrite E2; simpl; rewrite E3;
    simpl; rewrite E4; simpl; rewrite E5; simpl; rewrite E6; simpl;
    rewrite E7; simpl; rewrite E8; simpl; rewrite E9; simpl; rewrite E10;
    reflexivity.
Qed.

(** X15. At [full] detail the tool queries the host ten times, the seven
    queries of the basic payload and then the processor list three times,
    and every member of the result comes from the answer to one of these
    queries: the basic members from the first seven, [cpus.count] from the
    length of the eighth answer, [cpus.model] from the first element of
    the ninth and [cpus.speed] from the first element of the tenth (each
    [undefined] when that answer is empty).  The host is left in the state
    after these ten calls and the recorder's array is not touched. *)
Theorem SystemInfo_full_detail :
  forall (h : Host) (args : JsValue) (w : World h),
    args <> JUndefined -> args <> JNull ->
    is_string (own_field "detail" args) "full" = true ->
    run h (SystemInfo_execute args) w
    = (Ok (mkResult true
             (Some (JObj [ ("platform", JStr (reading h w 0 OsPlatform));
                           ("architecture", JStr (reading h w 1 OsArch));
                           ("uptime", JNum (Math_floor (reading h w 2 OsUptime)));
                           ("memory",
                            JObj [ ("total", megabytes (reading h w 3 OsTotalmem));
                                   ("free", megabytes (reading h w 4 OsFreemem));
                                   ("used",
                                    megabytes (reading h w 5 OsTotalmem
                                               - reading h w 6 OsFreemem)%float) ]);
                           ("cpus",
                            JObj [ ("count",
                                    JNum (float_of_nat
                                            (List.length (reading h w 7 OsCpus))));
                                   ("model", first_model (reading h w 8 OsCpus));
                                   ("speed", first_speed (reading h w 9 OsCpus)) ]) ]))
             None),
       mkWorld (after_calls h full_calls (outside w)) (logs w)) /\
    calls h (SystemInfo_execute args) w = full_calls.
Proof.
  intros h args w Hu Hn Hfull.
  apply is_string_eq in Hfull. unfold SystemInfo_execute.
  rewrite (destructure_default_value args "detail") by assumption.
  rewrite Hfull. unfold reading, full_calls, basic_calls.
  cbn [app firstn after_calls].
  destruct (answer h _ OsPlatform (outside w)) as [p s1] eqn:E1.
  cbn [fst snd].
  destruct (answer h _ OsArch s1) as [a s2] eqn:E2. cbn [fst snd].
  destruct (answer h _ OsUptime s2) as [u s3] eqn:E3. cbn [fst snd].
  destruct (answer h _ OsTotalmem s3) as [t s4] eqn:E4. cbn [fst snd].
  destruct (answer h _ OsFreemem s4) as [f s5] eqn:E5. cbn [fst snd].
  destruct (answer h _ OsTotalmem s5) as [t' s6] eqn:E6. cbn [fst snd].
  destruct (answer h _ OsFreemem s6) as [f' s7] eqn:E7. cbn [fst snd].
  destruct (answer h _ OsCpus s7) as [c1 s8] eqn:E8. cbn [fst snd].
  destruct (answer h _ OsCpus s8) as [c2 s9] eqn:E9. cbn [fst snd].
  destruct (answer h _ OsCpus s9) as [c3 s10] eqn:E10. cbn [fst snd].
  split; simpl; rewrite E1; simpl; rewrite E2; simpl; rewrite E3;
    simpl; rewrite E4; simpl; rewrite E5; simpl; rewrite E6; simpl;
    rewrite E7; simpl; rewrite E8; simpl; rewrite E9; simpl; rewrite E10;
    reflexivity.
Qed.

Lemma SystemInfo_succeeds (h : Host) (args : JsValue) (w : World h) :
  args <> JUndefined -> args <> JNull ->
  exists payload w',
    run h (SystemInfo_execute args) w = (Ok (ok_result payload), w') /\
    logs w' = logs w.
Proof.
  intros Hu Hn.
  destruct (is_string (own_field "detail" args) "full") eqn:Hfull.
  - destruct (SystemInfo_full h args w Hu Hn Hfull)
      as [p [a [u [t [f [us [c1 [c2 [c3 [w' [Hrun [Hlogs _]]]]]]]]]]]].
    eexists. exists w'. split; [exact Hrun | exact Hlogs].
  - destruct (SystemInfo_basic_run h w)
      as [p [a [u [t [f [us [w' [Hlogs Hrun]]]]]]]].
    destruct (Hrun args Hu Hn Hfull) as [Hrun' _].
    eexists. exists w'. split; [exact Hrun' | exact Hlogs].
Qed.

Lemma object_is_value (args : JsValue) :
  is_object args -> args <> JUndefined /\ args <> JNull.
Proof. destruct args; simpl; intro H; try contradiction; split; discriminate. Qed.

(** X16. A [system_info] call whose arguments pass validation is never
    answered with an error: the handler returns the serialized result of
    the tool, marked successful, whatever [detail] holds and whatever the
    host reports. *)
Theorem system_info_never_fails :
  forall (h : Host) (this : MCPServerDemo) (args : JsValue) (w : World h),
    Map_get "system_info" (tools this) = Some SystemInfoTool ->
    validateArguments SystemInfo_schema args = Ok tt ->
    exists payload w',
      run h (callTool this "system_info" args) w
      = (Ok (mkCallResult
               [ mkText "text"
                   (JSON_stringify
                      (JObj [ ("success", JBool true); ("data", payload) ])) ]
               None),
         w').
Proof.
  intros h this args w Hget Hval.
  destruct (validateArguments_accepts _ _ Hval) as [Hobj _].
  destruct (object_is_value args Hobj) as [Hu Hn].
  destruct (SystemInfo_succeeds h args w Hu Hn) as [payload [w1 [Hrun _]]].
  unfold callTool. rewrite Hget, run_try_catch. unfold callTool_try.
  rewrite run_bind, run_lift.
  change (inputSchema SystemInfoTool) with SystemInfo_schema. rewrite Hval.
  rewrite run_bind.
  change (execute SystemInfoTool args) with (SystemInfo_execute args).
  rewrite Hrun, run_bind.
  destruct (logToolUsage_succeeds h (googleADK this) "system_info" args
              (ok_result payload) w1) as [now [s [_ Hlog]]].
  rewrite Hlog. exists payload. eexists. reflexivity.
Qed.

(** ** The recorder *)

Lemma host_only_destructure {A : Type} (args : JsValue) (first : string)
    (body : Prog A) :
  host_only body -> host_only (destructure args first body).
Proof. intro H. destruct args; simpl; try exact H; constructor. Qed.

Lemma host_only_destructure_default {A : Type} (args : JsValue)
    (first : string) (body : Prog A) :
  host_only body -> host_only (destructure_default args first body).
Proof. intro H. destruct args; simpl; try exact H; constructor. Qed.

Lemma Calculator_host_only (args : JsValue) : host_only (Calculator_execute args).
Proof.
  unfold Calculator_execute. apply host_only_destructure.
  repeat match goal with
         | |- host_only (if ?b then _ else _) => destruct b
         end; constructor.
Qed.

Lemma stat_each_host_only (safePath : string) (entries : list string) :
  host_only (stat_each safePath entries).
Proof.
  induction entries as [| entry rest IH]; simpl; [constructor |].
  constructor. intro r. simpl.
  apply host_only_bind; [exact IH | intro rs; constructor].
Qed.

Lemma Promise_all_host_only (settled : list (string * Result Stats)) :
  host_only (Promise_all settled).
Proof.
  induction settled as [| [entry [stats | e]] rest IH]; simpl;
    try constructor.
  apply host_only_bind; [exact IH | intro more; constructor].
Qed.

Lemma FileOperations_host_only (workspaceRoot : string) (args : JsValue) :
  host_only (FileOperations_execute workspaceRoot args).
Proof.
  unfold FileOperations_execute. apply host_only_destructure.
  apply host_only_bind; [apply host_only_lift | intro safePath].
  apply host_only_try_catch.
  - unfold FileOperations_switch.
    repeat match goal with
           | |- host_only (if ?b then _ else _) => destruct b
           end;
      repeat first
        [ apply host_only_bind
        | apply host_only_await
        | apply stat_each_host_only
        | apply Promise_all_host_only
        | intro
        | constructor ].
  - intro e. unfold FileOperations_catch. destruct (is_ENOENT e); constructor.
Qed.

Lemma SystemInfo_host_only (args : JsValue) : host_only (SystemInfo_execute args).
Proof.
  unfold SystemInfo_execute. apply host_only_destructure_default.
  repeat first
    [ apply host_only_bind; [apply host_only_call | intro]
    | match goal with
      | |- host_only (if ?b then _ else _) => destruct b
      end
    | constructor ].
Qed.

Lemma registered_host_only (cwd n : string) (tool : Tool) :
  Map_get n (registerTools cwd) = Some tool ->
  forall args, host_only (execute tool args).
Proof.
  unfold Map_get. simpl.
  destruct (String.eqb n "calculator");
    [intro H; inversion H; exact Calculator_host_only |].
  destruct (String.eqb n "file_operations");
    [intro H; inversion H; exact (FileOperations_host_only cwd) |].
  destruct (String.eqb n "system_info");
    [intro H; inversion H; exact SystemInfo_host_only |].
  discriminate.
Qed.

Lemma callTool_log_effect (h : Host) (this : MCPServerDemo) (n : string)
    (tool : Tool) (args : JsValue) (w : World h) :
  Map_get n (tools this) = Some tool ->
  (forall a, host_only (execute tool a)) ->
  exists r w',
    run h (callTool this n args) w = (Ok r, w') /\
    ((isError r = None /\
      exists result now,
        logs w' = logs w ++ [mkLog n args result now None] /\
        r = mkCallResult
              [ mkText "text" (JSON_stringify (ToolResult_value result)) ]
              None) \/
     (isError r = Some true /\ logs w' = logs w)).
Proof.
  intros Hget Honly. unfold callTool. rewrite Hget, run_try_catch.
  unfold callTool_try. rewrite run_bind, run_lift.
  destruct (validateArguments (inputSchema tool) args) as [[] | e].
  - rewrite run_bind.
    pose proof (host_only_keeps_logs h (execute tool args) (Honly args) w)
      as Hlogs.
    destruct (run h (execute tool args) w) as [[result | e] w1];
      simpl in Hlogs.
    + rewrite run_bind.
      destruct (logToolUsage_succeeds h (googleADK this) n args result w1)
        as [now [s [_ Hlog]]].
      rewrite Hlog. simpl. eexists. eexists. split; [reflexivity |].
      left. split; [reflexivity |]. exists result, now.
      simpl. rewrite Hlogs. auto.
    + simpl. eexists. eexists. split; [reflexivity |]. right. auto.
  - simpl. eexists. eexists. split; [reflexivity |]. right. auto.
Qed.

(** X17. A [tools/call] of a tool that itself leaves the recorder alone
    (as the three registered tools do) records exactly when it succeeds:
    a response without error marker comes with one new entry at the end of
    the recorder's array, holding the call's name, its arguments and the
    result that was serialized; an error envelope comes with the array
    unchanged. *)
Theorem callTool_records_successes :
  forall (h : Host) (this : MCPServerDemo) (n : string) (tool : Tool)
         (args : JsValue) (w : World h),
    Map_get n (tools this) = Some tool ->
    (forall a, host_only (execute tool a)) ->
    exists r w',
      run h (callTool this n args) w = (Ok r, w') /\
      ((isError r = None /\
        exists result now,
          logs w' = logs w ++ [mkLog n args result now None] /\
          r = mkCallResult
                [ mkText "text" (JSON_stringify (ToolResult_value result)) ]
                None) \/
       (isError r = Some true /\ logs w' = logs w)).
Proof. exact callTool_log_effect. Qed.

Lemma handle_log_effect (h : Host) (cwd : string) (adk : GoogleADKIntegration)
    (request : Request) (w : World h) :
  let this := mkServer (registerTools cwd) adk in
  map toolName (logs (snd (run h (handle this request) w)))
  = map toolName (logs w)
    ++ recorded [request] [fst (run h (handle this request) w)].
Proof.
  intro this. destruct request as [| n args | | uri]; simpl handle.
  - simpl. rewrite app_nil_r. reflexivity.
  - rewrite run_bind. unfold callTool at 1 2.
    destruct (Map_get n (tools this)) as [tool |] eqn:Hget.
    + fold (callTool this n args).
      assert (Hfold : match Map_get n (tools this) with
                      | Some tool0 =>
                          try_catch (callTool_try this tool0 n args)
                                    callTool_catch
                      | None =>
                          Throw (Error_ ("Tool " ++ dquote ++ n ++ dquote
                                         ++ " not found"))
                      end = callTool this n args) by reflexivity.
      destruct (callTool_log_effect h this n tool args w Hget
                  (registered_host_only cwd n tool Hget))
        as [r [w' [Hrun Hcases]]].
      unfold callTool in Hrun. rewrite Hget in Hrun. rewrite Hrun. simpl.
      destruct Hcases as [[Hok [result [now [Hlogs _]]]] | [Herr Hlogs]].
      * rewrite Hok, Hlogs, map_app. reflexivity.
      * rewrite Herr, Hlogs, app_nil_r. reflexivity.
    + simpl. rewrite app_nil_r. reflexivity.
  - simpl. rewrite app_nil_r. reflexivity.
  - rewrite run_bind. unfold readResource.
    destruct (String.eqb uri "file:///system-info").
    + rewrite run_bind.
      destruct (SystemInfo_succeeds h (JObj []) w) as [payload [w' [Hrun Hl]]];
        try discriminate.
      change (execute SystemInfoTool (JObj [])) with (SystemInfo_execute (JObj [])).
      rewrite Hrun. simpl. rewrite Hl, app_nil_r. reflexivity.
    + simpl. rewrite app_nil_r. reflexivity.
Qed.

(** X18. While the server with the three registered tools serves any
    sequence of requests, the recorder's array grows by one entry for each
    tool call answered without error marker, in the order served and under
    the called tool's name; listing tools or resources, reading a
    resource, a rejected or failed call, and a call of an unknown tool add
    nothing. *)
Theorem served_successes_are_recorded :
  forall (h : Host) (cwd : string) (adk : GoogleADKIntegration)
         (requests : list Request) (w : World h),
    let this := mkServer (registerTools cwd) adk in
    map toolName (logs (snd (serve h this requests w)))
    = map toolName (logs w) ++ recorded requests (fst (serve h this requests w)) /\
    length (logs (snd (serve h this requests w)))
    = length (logs w)
      + length (recorded requests (fst (serve h this requests w))).
Proof.
  intros h cwd adk requests w this. subst this.
  set (this := mkServer (registerTools cwd) adk).
  assert (Hnames : forall w0 : World h,
             map toolName (logs (snd (serve h this requests w0)))
             = map toolName (logs w0)
               ++ recorded requests (fst (serve h this requests w0))).
  { induction requests as [| request rest IH]; intro w0; simpl.
    - rewrite app_nil_r. reflexivity.
    - pose proof (handle_log_effect h cwd adk request w0) as Hstep.
      cbv zeta in Hstep. fold this in Hstep.
      destruct (run h (handle this request) w0) as [r w1] eqn:Hr.
      specialize (IH w1).
      destruct (serve h this rest w1) as [rs w2] eqn:Hs.
      cbn [fst snd recorded] in *.
      rewrite app_nil_r in Hstep.
      rewrite IH, Hstep, <- app_assoc. reflexivity. }
  split; [apply Hnames |].
  rewrite <- (length_map toolName), Hnames, length_app, length_map.
  reflexivity.
Qed.

(** ** Resources and fulfillment *)

(** X19. Every resource [resources/list] advertises can be read: reading
    its URI succeeds on any host and returns one content item under that
    URI with the advertised MIME type. *)
Theorem listed_resources_are_readable :
  forall (h : Host) (w : World h),
    exists resources,
      listResources = Ret resources /\
      resources <> [] /\
      Forall (fun r =>
                exists text w',
                  run h (readResource (uri r)) w
                  = (Ok [ mkContents (uri r) (mimeType r) text ], w'))
             resources.
Proof.
  intros h w. eexists. split; [reflexivity |]. split; [discriminate |].
  constructor; [| constructor]. simpl uri. simpl mimeType.
  unfold readResource. simpl String.eqb. cbv iota. rewrite run_bind.
  destruct (SystemInfo_succeeds h (JObj []) w) as [payload [w' [Hrun _]]];
    try discriminate.
  change (execute SystemInfoTool (JObj [])) with (SystemInfo_execute (JObj [])).
  rewrite Hrun. simpl. eauto.
Qed.

(** X20. An integration constructed while [GOOGLE_ADK_ENABLED] is unset or
    anything but exactly [true] refuses every fulfillment request with
    [Google ADK integration is not enabled]; constructed under [true] it
    answers every request, whatever it holds, with the same greeting.  The
    constructor itself always succeeds and leaves the recorder's array
    empty. *)
Theorem fulfillment_needs_the_flag :
  forall (h : Host) (GOOGLE_ADK_ENABLED : option string) (request : JsValue)
         (w : World h),
    exists this w',
      run h (GoogleADKIntegration_new GOOGLE_ADK_ENABLED) w = (Ok this, w') /\
      logs w' = [] /\
      (GOOGLE_ADK_ENABLED = Some "true" ->
       exists greeting,
         forall request', handleFulfillmentRequest this request' = Ret greeting) /\
      (GOOGLE_ADK_ENABLED <> Some "true" ->
       handleFulfillmentRequest this request
       = Throw (Error_ "Google ADK integration is not enabled")).
Proof.
  intros h flag request w. unfold GoogleADKIntegration_new. simpl.
  destruct (flag_enabled flag) eqn:Hflag; simpl;
    match goal with
    | |- context [answer ?h0 ?X ?c ?s] => destruct (answer h0 X c s)
    end; simpl; eexists; eexists; (split; [reflexivity |]);
    (split; [reflexivity |]); unfold handleFulfillmentRequest; simpl; split.
  - intros _. eexists. intro. reflexivity.
  - intro Hne. exfalso. apply Hne. unfold flag_enabled in Hflag.
    destruct flag as [v |]; [| discriminate].
    apply String.eqb_eq in Hflag. now subst.
  - intros ->. discriminate Hflag.
  - intros _. reflexivity.
Qed.

End More.

(** ** Usage statistics *)

Lemma counts_agree_sound (fuel : nat) :
  forall (z : Z) (x : float),
    counts_agree fuel z x = true ->
    forall k, k < fuel ->
      Nat.iter k next_count x
      = PrimFloat.of_uint63 (Uint63.of_Z (z + Z.of_nat k)).
Proof.
  induction fuel as [| fuel IH]; intros z x Hcheck k Hk; [lia |].
  simpl in Hcheck.
  destruct (PrimFloat.Leibniz.eqb x (PrimFloat.of_uint63 (Uint63.of_Z z)))
    eqn:Hx; [| discriminate].
  rename Hcheck into Hrest.
  apply FloatAxioms.Leibniz.eqb_spec in Hx.
  destruct k as [| k].
  - simpl. rewrite Z.add_0_r. exact Hx.
  - rewrite Nat.iter_succ_r, (IH (z + 1)%Z (next_count x) Hrest k) by lia.
    do 2 f_equal. lia.
Qed.

Lemma count_is_number (c : nat) :
  (Z.of_nat c <= 100000)%Z ->
  Nat.iter c next_count 0%float = float_of_nat c.
Proof.
  intro Hc. unfold float_of_nat.
  rewrite (counts_agree_sound (S (Z.to_nat 100000)) 0%Z 0%float).
  - reflexivity.
  - vm_compute. reflexivity.
  - lia.
Qed.

Section Statistics.

Context {rt : Runtime}.
Variable member_text : string -> string.

Lemma count_call_other (n m : string) (breakdown : list (string * JsValue)) :
  m <> n ->
  lookup n (count_call member_text m breakdown) = lookup n breakdown.
Proof.
  intro Hne. unfold count_call.
  destruct (lookup m breakdown);
    [apply lookup_Map_set_ne; exact Hne |].
  destruct (String.eqb m "__proto__"); [reflexivity |].
  destruct (mem m Object_prototype_names);
    apply lookup_Map_set_ne; exact Hne.
Qed.

Lemma count_call_same (n : string) (breakdown : list (string * JsValue))
    (c : nat) :
  ~ In n Object_prototype_names ->
  lookup n breakdown = tally c ->
  lookup n (count_call member_text n breakdown) = tally (S c).
Proof.
  intros Hplain Hl. unfold count_call. rewrite Hl.
  destruct c as [| c]; simpl tally.
  - assert (Hmem : mem n Object_prototype_names = false).
    { destruct (mem n Object_prototype_names) eqn:E; [| reflexivity].
      apply mem_iff in E. contradiction. }
    assert (Hproto : String.eqb n "__proto__" = false).
    { destruct (String.eqb_spec n "__proto__") as [-> | Hne]; [| reflexivity].
      exfalso. apply Hplain. apply mem_iff. reflexivity. }
    rewrite Hproto, Hmem, lookup_Map_set_eq. reflexivity.
  - cbv iota. rewrite lookup_Map_set_eq. unfold js_or.
    set (x := next_count (Nat.iter c next_count 0%float)).
    unfold next_count at 1. destruct (truthy (JNum x)); reflexivity.
Qed.

Lemma breakdown_lookup (n : string) (logs : list ToolUsageLog) :
  ~ In n Object_prototype_names ->
  forall (breakdown : list (string * JsValue)) (c : nat),
    lookup n breakdown = tally c ->
    lookup n (fold_left (fun b log => count_call member_text (toolName log) b)
                        logs breakdown)
    = tally (c + length (calls_of n logs)).
Proof.
  intro Hplain. induction logs as [| log rest IH]; intros breakdown c Hl;
    simpl.
  - rewrite Nat.add_0_r. exact Hl.
  - destruct (String.eqb_spec (toolName log) n) as [Heq | Hne].
    + simpl. rewrite Nat.add_succ_r, <- Nat.add_succ_l. apply IH.
      rewrite Heq. apply count_call_same; assumption.
    + apply IH. rewrite count_call_other; assumption.
Qed.

(** X21. The statistics report the number of recorded calls as
    [totalCalls], and as [recentCalls] the last ten entries of the
    recorder's array in their order, or all of them when there are fewer. *)
Theorem recent_calls_are_the_last_ten :
  forall logs : list ToolUsageLog,
    totalCalls (getUsageStats member_text logs) = float_of_nat (length logs) /\
    length (recentCalls (getUsageStats member_text logs))
    = Nat.min 10 (length logs) /\
    exists older,
      logs = older ++ recentCalls (getUsageStats member_text logs) /\
      length older = length logs - 10.
Proof.
  intro logs. unfold getUsageStats. cbn [totalCalls recentCalls].
  split; [reflexivity |]. split.
  - rewrite length_skipn. lia.
  - exists (firstn (length logs - 10) logs). split.
    + symmetry. apply firstn_skipn.
    + rewrite length_firstn. lia.
Qed.

(** X22. For a tool name that is not a member name of [Object.prototype],
    the breakdown has no entry when no recorded call bears the name, and
    otherwise holds the result of adding one per recorded call of that
    name, which is their number (checked for up to 100000 calls);
    calls of other tools do not change it. *)
Theorem breakdown_counts_calls :
  forall (logs : list ToolUsageLog) (n : string),
    ~ In n Object_prototype_names ->
    let count := length (calls_of n logs) in
    lookup n (toolBreakdown (getUsageStats member_text logs)) = tally count /\
    (count = 0 ->
     lookup n (toolBreakdown (getUsageStats member_text logs)) = None) /\
    (0 < count -> (Z.of_nat count <= 100000)%Z ->
     lookup n (toolBreakdown (getUsageStats member_text logs))
     = Some (JNum (float_of_nat count))).
Proof.
  intros logs n Hplain count.
  assert (Hl : lookup n (toolBreakdown (getUsageStats member_text logs))
               = tally count).
  { unfold getUsageStats. simpl toolBreakdown.
    apply (breakdown_lookup n logs Hplain [] 0). reflexivity. }
  split; [exact Hl |]. split.
  - intro H0. rewrite Hl, H0. reflexivity.
  - intros Hpos Hle. rewrite Hl. destruct count as [| c]; [lia |].
    cbn [tally]. rewrite count_is_number by exact Hle. reflexivity.
Qed.

End Statistics.

(** ** These statements on the sample servers *)

Lemma validated_argument_witness :
  In "a" (map fst (supplied multiply_args)) /\
  typeof (own_field "a" multiply_args) = "number".
Proof.
  apply (validated_argument_typed Calculator_schema multiply_args "a"
           (mkProp "number" None "First number") eq_refl eq_refl
           (or_introl eq_refl)).
  left. split; [simpl; auto |].
  intro H. apply mem_iff in H. discriminate H.
Defined.

Lemma first_missing_witness :
  validateArguments Calculator_schema no_a_args
  = Err (Error_ "Missing required argument: a").
Proof.
  apply (first_missing_reported Calculator_schema no_a_args
           ["operation"] ["b"] "a" I eq_refl).
  - constructor; [simpl; auto | constructor].
  - simpl. intros [H | [H | []]]; discriminate H.
  - intro H. apply mem_iff in H. discriminate H.
Defined.

Lemma first_mistyped_witness :
  validateArguments Calculator_schema mistyped_args
  = Err (Error_ ("Argument " ++ dquote ++ "a" ++ dquote ++ " must be a number")).
Proof.
  apply (first_mistyped_reported Calculator_schema mistyped_args
           [("operation", JStr "add")] [("b", JNum 2)] "a" (JStr "1")
           (mkProp "number" None "First number") I).
  - constructor; [simpl; auto |].
    constructor; [simpl; auto |].
    constructor; [simpl; auto | constructor].
  - reflexivity.
  - constructor; [| constructor].
    intros p H _. simpl in H. inversion H. reflexivity.
  - reflexivity.
  - left. reflexivity.
  - discriminate.
Defined.

Lemma absent_arguments_witness :
  callTool (rt := sample_runtime) sample_server "system_info" JUndefined
  = Ret (error_envelope "Arguments must be an object").
Proof.
  exact (proj1 (absent_arguments_rejected (rt := sample_runtime) sample_server
                  "system_info" SystemInfoTool eq_refl)).
Defined.

Lemma calculator_unknown_operation_witness :
  Calculator_execute (rt := sample_runtime) power_args
  = Throw (Error_ "Unknown operation: power").
Proof.
  apply (calculator_unknown_operation (rt := sample_runtime) power_args).
  - discriminate.
  - discriminate.
  - intro H. exact H.
  - reflexivity.
Defined.

Lemma validated_calculator_witness :
  exists (s : string) (a b : float),
    own_field "operation" multiply_args = JStr s /\
    own_field "a" multiply_args = JNum a /\
    own_field "b" multiply_args = JNum b /\
    Calculator_execute (rt := sample_runtime) multiply_args
    = calculator_outcome s a b.
Proof.
  exact (validated_calculator_call (rt := sample_runtime) multiply_args eq_refl).
Defined.

Lemma file_calls_witness :
  calls friendly_host
    (FileOperations_execute (rt := sample_runtime) "/srv" list_here_args)
    friendly_world
  = [ made _ (FsReaddir "/srv/.");
      made _ (FsStat "/srv/./notes.txt");
      made _ (FsStat "/srv/./src") ].
Proof.
  exact (proj1 (file_calls_confined (rt := sample_runtime) friendly_host "/srv"
                  list_here_args "." friendly_world eq_refl)).
Defined.

Lemma write_requires_content_witness :
  FileOperations_execute (rt := sample_runtime) "/srv" write_empty_args
  = Throw (Error_ "Content is required for write operation").
Proof.
  exact (write_requires_content (rt := sample_runtime) "/srv" write_empty_args
           "notes.txt" eq_refl eq_refl eq_refl eq_refl eq_refl).
Defined.

Lemma file_unknown_operation_witness :
  FileOperations_execute (rt := sample_runtime) "/srv" delete_args
  = Throw (Error_ "Unknown operation: delete").
Proof.
  exact (file_unknown_operation (rt := sample_runtime) "/srv" delete_args
           "notes.txt" eq_refl eq_refl eq_refl (fun H => H) eq_refl).
Defined.

Lemma read_returns_content_witness :
  run euro_host
    (FileOperations_execute (rt := sample_runtime) "/srv" read_notes_args)
    euro_world
  = (Ok (mkResult true
           (Some (JObj [ ("path", JStr "notes.txt");
                         ("content", JStr euro_text);
                         ("size", JNum 2) ]))
           None),
     mkWorld (h := euro_host) 1 []) /\
  String.length euro_text = 4.
Proof.
  split; [| reflexivity].
  exact (proj1 (read_returns_content (rt := sample_runtime) euro_host
                  "/srv" read_notes_args "notes.txt" euro_world euro_text
                  1 eq_refl eq_refl eq_refl eq_refl eq_refl)).
Defined.

Lemma list_reports_witness :
  exists (names : list string) (s : host_state friendly_host)
         (fileList : list JsValue),
    answer friendly_host _ (FsReaddir "/srv/.") 0 = (Ok names, s) /\
    map (own_field "name") fileList = map JStr names /\
    map (own_field "type") fileList = [ JStr "file"; JStr "directory" ].
Proof.
  destruct (list_reports_each_entry (rt := sample_runtime) friendly_host
              "/srv" list_here_args "." friendly_world _ _
              eq_refl eq_refl eq_refl eq_refl eq_refl)
    as [names [s [fileList [Hanswer [Hresult [Hnames _]]]]]].
  exists names, s, fileList. split; [exact Hanswer |]. split; [exact Hnames |].
  inversion Hresult. reflexivity.
Defined.

Lemma SystemInfo_full_witness :
  exists payload,
    run sample_host
      (SystemInfo_execute (rt := sample_runtime) full_detail_args) sample_world
    = (Ok (mkResult true (Some payload) None),
       mkWorld (h := sample_host) 10 []) /\
    own_field "cpus" payload
    = JObj [ ("count", JNum 1); ("model", JStr "cpu"); ("speed", JNum 2400) ].
Proof.
  eexists. split.
  - apply (SystemInfo_full_detail (rt := sample_runtime) sample_host
             full_detail_args sample_world);
      [discriminate | discriminate | reflexivity].
  - reflexivity.
Defined.

Lemma system_info_never_fails_witness :
  exists payload w',
    run sample_host
      (callTool (rt := sample_runtime) sample_server "system_info" (JObj []))
      sample_world
    = (Ok (mkCallResult
             [ mkText "text"
                 (JSON_stringify (Runtime := sample_runtime)
                    (JObj [ ("success", JBool true); ("data", payload) ])) ]
             None),
       w').
Proof.
  exact (system_info_never_fails (rt := sample_runtime) sample_host
           sample_server (JObj []) sample_world eq_refl eq_refl).
Defined.

Lemma callTool_records_witness :
  exists r w',
    run sample_host
      (callTool (rt := sample_runtime) sample_server "calculator" multiply_args)
      sample_world = (Ok r, w') /\
    isError r = None /\
    map toolName (logs w') = [ "calculator" ].
Proof.
  destruct (callTool_records_successes (rt := sample_runtime) sample_host
              sample_server "calculator" CalculatorTool multiply_args
              sample_world eq_refl Calculator_host_only)
    as [r [w' [Hrun [[Hok [result [now [Hlogs _]]]] | [Herr _]]]]].
  - exists r, w'. split; [exact Hrun |]. split; [exact Hok |].
    rewrite Hlogs. reflexivity.
  - exfalso. inversion Hrun. subst r. discriminate Herr.
Defined.

Lemma breakdown_counts_witness :
  lookup "calculator"
    (toolBreakdown
       (getUsageStats (rt := sample_runtime) sample_member_text sample_logs))
  = Some (JNum 2).
Proof.
  destruct (breakdown_counts_calls (rt := sample_runtime) sample_member_text
              sample_logs "calculator") as [_ [_ Hcount]].
  - intro H. apply mem_iff in H. discriminate H.
  - apply Hcount.
    + apply Nat.lt_0_succ.
    + discriminate.
Defined.
